(** * Rawmux demuxer (libavformat/rawmuxdec.c)

    A shallow embedding of the three entry points of the rawmux demuxer,
    [rawmux_read_probe], [rawmux_read_header] and [rawmux_read_packet],
    with the reader state passed explicitly, and the properties of the
    container format proved about them. *)

From Stdlib Require Import String Ascii.
From Stdlib Require Import Strings.Byte.
From Stdlib Require Import ZArith List Lia Bool.
Import ListNotations.
Open Scope Z_scope.

(** ** Machine integers *)

(** Conversion of a value to C's [int] (two's complement, 32 bits). *)
Definition cast_int32 (z : Z) : Z := (z + 2 ^ 31) mod 2 ^ 32 - 2 ^ 31.

(** Conversion of a value to [int64_t]. *)
Definition cast_int64 (z : Z) : Z := (z + 2 ^ 63) mod 2 ^ 64 - 2 ^ 63.

(** Conversion of a value to [unsigned int]. *)
Definition cast_uint32 (z : Z) : Z := z mod 2 ^ 32.

(** The value of a byte as C's [uint8_t]. *)
Definition byte_val (b : byte) : Z := Z.of_N (Byte.to_N b).

(** ** Constants of the surrounding library *)

(* FFERRTAG('I','N','D','A') *)
Definition AVERROR_INVALIDDATA : Z := - 1094995529.
(* FFERRTAG('E','O','F',' ') *)
Definition AVERROR_EOF : Z := - 541478725.
Definition ENOMEM : Z := 12.
Definition AVERROR (e : Z) : Z := - e.
Definition AVPROBE_SCORE_MAX : Z := 100.
Definition AV_PIX_FMT_NONE : Z := - 1.
Definition INT_MAX : Z := 2 ^ 31 - 1.

Inductive AVMediaType :=
| AVMEDIA_TYPE_UNKNOWN
| AVMEDIA_TYPE_VIDEO
| AVMEDIA_TYPE_AUDIO
| AVMEDIA_TYPE_DATA
| AVMEDIA_TYPE_SUBTITLE
| AVMEDIA_TYPE_ATTACHMENT.

Definition AVMediaType_eqb (a b : AVMediaType) : bool :=
  match a, b with
  | AVMEDIA_TYPE_UNKNOWN, AVMEDIA_TYPE_UNKNOWN
  | AVMEDIA_TYPE_VIDEO, AVMEDIA_TYPE_VIDEO
  | AVMEDIA_TYPE_AUDIO, AVMEDIA_TYPE_AUDIO
  | AVMEDIA_TYPE_DATA, AVMEDIA_TYPE_DATA
  | AVMEDIA_TYPE_SUBTITLE, AVMEDIA_TYPE_SUBTITLE
  | AVMEDIA_TYPE_ATTACHMENT, AVMEDIA_TYPE_ATTACHMENT => true
  | _, _ => false
  end.

(** ** The demuxer's own declarations *)

(* enum stream *)
Definition STREAM_NONE : Z := 0.
Definition STREAM_VIDEO : Z := 1.
Definition STREAM_AUDIO : Z := 2.

(* static const char HEADER[] = { 'r', 'a', 'w', 'm', 'u', 'x' }; *)
Definition HEADER : list byte := [x72; x61; x77; x6d; x75; x78].

(* sizeof(HEADER) *)
Definition sizeof_HEADER : nat := length HEADER.

(** ** Data *)

Record AVRational := mkRational { num : Z; den : Z }.

Record AVCodec := mkCodec { AVCodec_id : Z; AVCodec_type : AVMediaType }.

Record AVCodecParameters := mkPar {
  codec_type : AVMediaType;
  codec_id : Z;
  format : Z;
  width : Z;
  height : Z;
  bit_rate : Z;
  sample_rate : Z;
  channels : Z;
  bits_per_coded_sample : Z;
  block_align : Z
}.

Record AVStream := mkStream {
  index : Z;
  codecpar : AVCodecParameters;
  time_base : AVRational;
  pts_wrap_bits : Z
}.

(** What [av_log] is given at each error site of the demuxer. *)
Inductive log_msg :=
| Invalid_version (version : Z)
| Invalid_stream_type (t : Z)
| Too_many_streams
| Invalid_pixel_format (pix_fmt_name : string) (idx : Z)
| Invalid_codec (codec_name : string) (idx : Z).

(** The input cursor: the bytes not yet consumed. *)
Definition AVIOContext := list byte.

Record AVFormatContext := mkCtx {
  pb : AVIOContext;
  streams : list AVStream;
  log : list log_msg
}.

Record AVPacket := mkPacket {
  data : list byte;
  size : Z;
  pts : Z;
  dts : Z;
  stream_index : Z
}.

(** How a call of the header reader ends: it returns an [int], it stops in
    [av_assert0], or it asks for a quotient that does not exist. *)
Inductive outcome :=
| Return (ret : Z)
| Aborted
| Undefined.

(** Field updates. *)
Definition set_pb (p : AVIOContext) (c : AVFormatContext) : AVFormatContext :=
  mkCtx p (streams c) (log c).

Definition av_log (m : log_msg) (c : AVFormatContext) : AVFormatContext :=
  mkCtx (pb c) (streams c) (log c ++ [m]).

Definition set_codecpar (p : AVCodecParameters) (st : AVStream) : AVStream :=
  mkStream (index st) p (time_base st) (pts_wrap_bits st).

Definition set_codec_type v p :=
  mkPar v (codec_id p) (format p) (width p) (height p) (bit_rate p)
        (sample_rate p) (channels p) (bits_per_coded_sample p) (block_align p).
Definition set_codec_id v p :=
  mkPar (codec_type p) v (format p) (width p) (height p) (bit_rate p)
        (sample_rate p) (channels p) (bits_per_coded_sample p) (block_align p).
Definition set_format v p :=
  mkPar (codec_type p) (codec_id p) v (width p) (height p) (bit_rate p)
        (sample_rate p) (channels p) (bits_per_coded_sample p) (block_align p).
Definition set_width v p :=
  mkPar (codec_type p) (codec_id p) (format p) v (height p) (bit_rate p)
        (sample_rate p) (channels p) (bits_per_coded_sample p) (block_align p).
Definition set_height v p :=
  mkPar (codec_type p) (codec_id p) (format p) (width p) v (bit_rate p)
        (sample_rate p) (channels p) (bits_per_coded_sample p) (block_align p).
Definition set_bit_rate v p :=
  mkPar (codec_type p) (codec_id p) (format p) (width p) (height p) v
        (sample_rate p) (channels p) (bits_per_coded_sample p) (block_align p).
Definition set_sample_rate v p :=
  mkPar (codec_type p) (codec_id p) (format p) (width p) (height p) (bit_rate p)
        v (channels p) (bits_per_coded_sample p) (block_align p).
Definition set_channels v p :=
  mkPar (codec_type p) (codec_id p) (format p) (width p) (height p) (bit_rate p)
        (sample_rate p) v (bits_per_coded_sample p) (block_align p).
Definition set_bits_per_coded_sample v p :=
  mkPar (codec_type p) (codec_id p) (format p) (width p) (height p) (bit_rate p)
        (sample_rate p) (channels p) v (block_align p).
Definition set_block_align v p :=
  mkPar (codec_type p) (codec_id p) (format p) (width p) (height p) (bit_rate p)
        (sample_rate p) (channels p) (bits_per_coded_sample p) v.

(** [st] points at the last element of [avctx->streams]: a write through
    [st] is a write to that element. *)
Definition store_stream (st : AVStream) (c : AVFormatContext) : AVFormatContext :=
  mkCtx (pb c) (removelast (streams c) ++ [st]) (log c).

(** ** The byte reader *)

(** Modelled from the spec: [avio_r8] (libavformat/aviobuf.c), the read of
    one unsigned byte from the cursor.  Its C type has no error channel:
    the caller gets a value in every case, and at the end of the input
    that value is 0. *)
Definition read_byte (s : AVIOContext) : byte * AVIOContext :=
  match s with
  | [] => (x00, [])
  | b :: rest => (b, rest)
  end.

Definition avio_r8 (s : AVIOContext) : Z * AVIOContext :=
  let '(b, s) := read_byte s in (byte_val b, s).

(** Modelled from the spec: [avio_rl16], [avio_rl32] and [avio_rl64]
    (libavformat/aviobuf.c), the little-endian unsigned reads. *)
Definition avio_rl16 (s : AVIOContext) : Z * AVIOContext :=
  let '(lo, s) := avio_r8 s in
  let '(hi, s) := avio_r8 s in
  (Z.lor lo (Z.shiftl hi 8), s).

Definition avio_rl32 (s : AVIOContext) : Z * AVIOContext :=
  let '(lo, s) := avio_rl16 s in
  let '(hi, s) := avio_rl16 s in
  (Z.lor lo (Z.shiftl hi 16), s).

Definition avio_rl64 (s : AVIOContext) : Z * AVIOContext :=
  let '(lo, s) := avio_rl32 s in
  let '(hi, s) := avio_rl32 s in
  (Z.lor lo (Z.shiftl hi 32), s).

(** Modelled from the spec: [avio_skip] (libavformat/aviobuf.c), which
    advances the cursor by [offset] bytes. *)
Definition avio_skip (s : AVIOContext) (offset : nat) : AVIOContext :=
  skipn offset s.

(** Modelled from the spec: [avio_get_str] (libavformat/aviobuf.c), the
    read of a NUL-terminated string of at most [maxlen] bytes into a buffer
    of [buflen] bytes.  At most [buflen - 1] characters are kept; the rest
    of the field, up to its NUL or to [maxlen], is consumed and dropped
    without any error. *)
Fixpoint get_str_keep (n : nat) (s : AVIOContext)
  : list byte * bool * AVIOContext :=
  match n with
  | O => ([], false, s)
  | S n' =>
      let '(c, s1) := read_byte s in
      if Byte.eqb c x00 then ([], true, s1)
      else
        let '(cs, nul, s2) := get_str_keep n' s1 in
        (c :: cs, nul, s2)
  end.

Fixpoint get_str_drop (n : nat) (s : AVIOContext) : AVIOContext :=
  match n with
  | O => s
  | S n' =>
      let '(c, s1) := read_byte s in
      if Byte.eqb c x00 then s1 else get_str_drop n' s1
  end.

Definition avio_get_str (s : AVIOContext) (maxlen buflen : nat)
  : list byte * AVIOContext :=
  let keep := Nat.min (buflen - 1) maxlen in
  let '(cs, nul, s1) := get_str_keep keep s in
  if nul then (cs, s1) else (cs, get_str_drop (maxlen - keep) s1).

(** ** Packets *)

Definition set_payload (d : list byte) (n : Z) (pkt : AVPacket) : AVPacket :=
  mkPacket d n (pts pkt) (dts pkt) (stream_index pkt).

Definition set_pts (v : Z) (pkt : AVPacket) : AVPacket :=
  mkPacket (data pkt) (size pkt) v (dts pkt) (stream_index pkt).

Definition set_dts (v : Z) (pkt : AVPacket) : AVPacket :=
  mkPacket (data pkt) (size pkt) (pts pkt) v (stream_index pkt).

Definition set_stream_index (v : Z) (pkt : AVPacket) : AVPacket :=
  mkPacket (data pkt) (size pkt) (pts pkt) (dts pkt) v.

(** Modelled from the spec: [av_get_packet] (libavformat/utils.c), which
    reads exactly [size] bytes from the cursor into a freshly allocated
    payload and returns their number.  When a payload of exactly [size]
    bytes cannot be delivered, because fewer than [size] bytes remain or
    because [size] is negative, it fails with the short-read condition of
    the cursor and leaves the packet without payload. *)
Definition av_get_packet (s : AVIOContext) (pkt : AVPacket) (n : Z)
  : Z * AVIOContext * AVPacket :=
  if (0 <=? n) && (n <=? Z.of_nat (length s)) then
    (n, skipn (Z.to_nat n) s, set_payload (firstn (Z.to_nat n) s) n pkt)
  else
    (AVERROR_EOF, (if n <? 0 then s else []), set_payload [] 0 pkt).

(* static int rawmux_read_packet(AVFormatContext *avctx, AVPacket *pkt) *)
Definition rawmux_read_packet (avctx : AVFormatContext) (pkt : AVPacket)
  : Z * AVFormatContext * AVPacket :=
  let '(stream, s) := avio_r8 (pb avctx) in
  let '(sz, s) := avio_rl32 s in
  let size := cast_int32 sz in
  let '(ts, s) := avio_rl64 s in
  let pts := cast_int64 ts in
  let '(ret, s, pkt) := av_get_packet s pkt size in
  if ret <? 0 then (ret, set_pb s avctx, pkt)
  else
    let pkt := set_pts pts (set_dts pts pkt) in
    let pkt := set_stream_index stream pkt in
    (0, set_pb s avctx, pkt).

(** ** The format sniffer *)

(** [memcmp] over the first [n] bytes: 0 when they agree, otherwise the
    difference of the first two bytes that differ. *)
Fixpoint memcmp (a b : list byte) (n : nat) {struct n} : Z :=
  match n, a, b with
  | S n', x :: a', y :: b' =>
      if Byte.eqb x y then memcmp a' b' n' else byte_val x - byte_val y
  | _, _, _ => 0
  end.

(* static int rawmux_read_probe(AVProbeData *p); [p->buf_size] is the
   length of [p->buf]. *)
Definition rawmux_read_probe (buf : list byte) : Z :=
  if (Z.of_nat (length buf) <? Z.of_nat sizeof_HEADER)
     || negb (memcmp HEADER buf sizeof_HEADER =? 0)
  then 0
  else AVPROBE_SCORE_MAX.

(** ** The stream table *)

(** The collaborators of the header reader: the pixel-format and codec
    registries, the buffer-size computation, and the allocator's answer to
    the request for the stream of a given index. *)
Record Collaborators := mkCollab {
  av_get_pix_fmt : string -> Z;
  av_image_get_buffer_size : Z -> Z -> Z -> Z -> Z;
  avcodec_find_decoder_by_name : string -> option AVCodec;
  av_get_bits_per_sample : Z -> Z;
  AV_CODEC_ID_RAWVIDEO : Z;
  stream_alloc_ok : nat -> bool
}.

(** The nearest integer to [p / c], halves away from zero. *)
Definition round_div (p c : Z) : Z :=
  Z.sgn p * Z.sgn c * ((2 * Z.abs p + Z.abs c) / (2 * Z.abs c)).

(** Modelled from the spec: [av_rescale_q] (libavutil/mathematics.c),
    which rescales [a] by the quotient of the rationals [bq] and [cq],
    [round (a * bq / cq)], here over unbounded integers.  The quotient
    exists when its divisor [cq.num * bq.den] is not zero. *)
Definition av_rescale_q (a : Z) (bq cq : AVRational) : option Z :=
  let b := num bq * den cq in
  let c := num cq * den bq in
  if c =? 0 then None else Some (round_div (a * b) c).

(** Modelled from the spec: [avpriv_set_pts_info] (libavformat/utils.c),
    which applies [pts_num / pts_den] as the time base of the stream, with
    timestamps of [pts_wrap_bits] bits.  Its two parameters are
    [unsigned int]; the fields of an [AVRational] are [int]. *)
Definition avpriv_set_pts_info (st : AVStream) (wrap_bits : Z)
           (pts_num pts_den : Z) : AVStream :=
  mkStream (index st) (codecpar st)
           (mkRational (cast_int32 pts_num) (cast_int32 pts_den)) wrap_bits.

Definition default_codecpar : AVCodecParameters :=
  mkPar AVMEDIA_TYPE_UNKNOWN 0 (- 1) 0 0 0 0 0 0 0.

(** Modelled from the spec: [avformat_new_stream] (libavformat/utils.c),
    which allocates a descriptor whose index is the current length of the
    catalog and appends it; it returns NULL when the allocation is
    refused. *)
Definition avformat_new_stream (env : Collaborators) (c : AVFormatContext)
  : option (AVStream * AVFormatContext) :=
  let n := length (streams c) in
  if stream_alloc_ok env n then
    let st := mkStream (Z.of_nat n) default_codecpar (mkRational 0 1) 0 in
    Some (st, mkCtx (pb c) (streams c ++ [st]) (log c))
  else None.

(** One turn of the [for] loop of [rawmux_read_header]: it returns from the
    function, or goes round again. *)
Inductive turn :=
| Done (r : outcome) (c : AVFormatContext)
| Continue (c : AVFormatContext).

Section Header.

Variable env : Collaborators.

(* if (t == STREAM_VIDEO) { ... } *)
Definition video_stream (st : AVStream) (avctx : AVFormatContext) : turn :=
  let par := set_codec_type AVMEDIA_TYPE_VIDEO (codecpar st) in
  let par := set_codec_id (AV_CODEC_ID_RAWVIDEO env) par in
  let '(pix_fmt_name, s) := avio_get_str (pb avctx) 32 32 in
  let par := set_format (av_get_pix_fmt env (string_of_list_byte pix_fmt_name)) par in
  let st := set_codecpar par st in
  if format par =? AV_PIX_FMT_NONE then
    Done (Return AVERROR_INVALIDDATA)
         (av_log (Invalid_pixel_format (string_of_list_byte pix_fmt_name) (index st))
                 (store_stream st (set_pb s avctx)))
  else
    let '(n, s) := avio_rl32 s in
    let tb_num := cast_int32 n in
    let '(d, s) := avio_rl32 s in
    let tb_den := cast_int32 d in
    let st := avpriv_set_pts_info st 64 (cast_uint32 tb_num) (cast_uint32 tb_den) in
    let '(w, s) := avio_rl32 s in
    let par := set_width (cast_int32 w) par in
    let '(h, s) := avio_rl32 s in
    let par := set_height (cast_int32 h) par in
    let st := set_codecpar par st in
    let size := av_image_get_buffer_size env (format par) (width par) (height par) 1 in
    if size <? 0 then
      Done (Return size) (store_stream st (set_pb s avctx))
    else
      match av_rescale_q size (mkRational 8 1) (time_base st) with
      | None => Done Undefined (store_stream st (set_pb s avctx))
      | Some r =>
          let st := set_codecpar (set_bit_rate r par) st in
          Continue (store_stream st (set_pb s avctx))
      end.

(* else if (t == STREAM_AUDIO) { ... } *)
Definition audio_stream (st : AVStream) (avctx : AVFormatContext) : turn :=
  let '(suffix, s) := avio_get_str (pb avctx) (32 - 4) (32 - 4) in
  let codec_name := String.append "pcm_" (string_of_list_byte suffix) in
  match avcodec_find_decoder_by_name env codec_name with
  | None =>
      Done (Return AVERROR_INVALIDDATA)
           (av_log (Invalid_codec codec_name (index st)) (set_pb s avctx))
  | Some codec =>
      if negb (AVMediaType_eqb (AVCodec_type codec) AVMEDIA_TYPE_AUDIO) then
        Done (Return AVERROR_INVALIDDATA)
             (av_log (Invalid_codec codec_name (index st)) (set_pb s avctx))
      else
        let par := set_codec_type AVMEDIA_TYPE_AUDIO (codecpar st) in
        let par := set_codec_id (AVCodec_id codec) par in
        let '(rate, s) := avio_rl32 s in
        let par := set_sample_rate (cast_int32 rate) par in
        let '(ch, s) := avio_r8 s in
        let par := set_channels ch par in
        let par := set_bits_per_coded_sample
                     (av_get_bits_per_sample env (codec_id par)) par in
        if bits_per_coded_sample par >? 0 then
          let par := set_block_align
                       (Z.quot (cast_int32 (bits_per_coded_sample par * channels par))
                               8) par in
          let st := set_codecpar par st in
          let st := avpriv_set_pts_info st 64 1 (cast_uint32 (sample_rate par)) in
          Continue (store_stream st (set_pb s avctx))
        else
          Done Aborted (store_stream (set_codecpar par st) (set_pb s avctx))
  end.

(* The body of  for (enum stream t; (t = avio_r8(pb)) != STREAM_NONE;)  *)
Definition stream_turn (avctx : AVFormatContext) : turn :=
  let '(t, s) := avio_r8 (pb avctx) in
  let avctx := set_pb s avctx in
  if t =? STREAM_NONE then Done (Return 0) avctx
  else if t >? STREAM_AUDIO then
    Done (Return AVERROR_INVALIDDATA) (av_log (Invalid_stream_type t) avctx)
  else
    match avformat_new_stream env avctx with
    | None => Done (Return (AVERROR ENOMEM)) avctx
    | Some (st, avctx) =>
        if index st >? 255 then
          Done (Return AVERROR_INVALIDDATA) (av_log Too_many_streams avctx)
        else if t =? STREAM_VIDEO then video_stream st avctx
        else if t =? STREAM_AUDIO then audio_stream st avctx
        else Continue avctx
    end.

(** The [for] loop.  Every turn that goes round again has consumed at least
    one byte, so [fuel] above the length of the input is never used up
    ([read_streams_fuel] below); [None] is the loop cut short by [fuel]. *)
Fixpoint read_streams (fuel : nat) (avctx : AVFormatContext)
  : option (outcome * AVFormatContext) :=
  match fuel with
  | O => None
  | S fuel' =>
      match stream_turn avctx with
      | Done r c => Some (r, c)
      | Continue c => read_streams fuel' c
      end
  end.

(* static int rawmux_read_header(AVFormatContext *avctx) *)
Definition rawmux_read_header (avctx : AVFormatContext)
  : option (outcome * AVFormatContext) :=
  let s := avio_skip (pb avctx) sizeof_HEADER in
  let '(version, s) := avio_r8 s in
  let avctx := set_pb s avctx in
  if negb (version =? 1) then
    Some (Return AVERROR_INVALIDDATA, av_log (Invalid_version version) avctx)
  else
    read_streams (S (length (pb avctx))) avctx.

End Header.

(** ** The byte layout of the container *)

(** The value of a little-endian field. *)
Fixpoint rl_value (bs : list byte) : Z :=
  match bs with
  | [] => 0
  | b :: bs' => byte_val b + 256 * rl_value bs'
  end.

(** A name that a string field holds whole: no NUL inside, and at most
    [cap] characters. *)
Definition name_fits (cap : nat) (name : list byte) : Prop :=
  Forall (fun b => b <> x00) name /\ (length name <= cap)%nat.

(** A stream descriptor as it lies in the file, after its type byte: the
    name without its NUL, and the bytes of each integer field. *)
Inductive descriptor :=
| VideoDesc (name tb_num tb_den w h : list byte)
| AudioDesc (name rate : list byte) (ch : byte).

Definition encode (d : descriptor) : list byte :=
  match d with
  | VideoDesc name n d w h => x01 :: name ++ x00 :: n ++ d ++ w ++ h
  | AudioDesc name rate ch => x02 :: name ++ x00 :: rate ++ [ch]
  end.

(** A descriptor that the header reader takes: its fields have their
    widths, its name resolves, and the derived values exist. *)
Definition acceptable (env : Collaborators) (d : descriptor) : Prop :=
  match d with
  | VideoDesc name n d w h =>
      name_fits 31 name /\
      length n = 4%nat /\ length d = 4%nat /\ length w = 4%nat /\ length h = 4%nat /\
      av_get_pix_fmt env (string_of_list_byte name) <> AV_PIX_FMT_NONE /\
      0 <= av_image_get_buffer_size env
             (av_get_pix_fmt env (string_of_list_byte name))
             (cast_int32 (rl_value w)) (cast_int32 (rl_value h)) 1 /\
      cast_int32 (rl_value n) <> 0
  | AudioDesc name rate ch =>
      name_fits 27 name /\
      length rate = 4%nat /\
      exists codec,
        avcodec_find_decoder_by_name env
          (String.append "pcm_" (string_of_list_byte name)) = Some codec /\
        AVCodec_type codec = AVMEDIA_TYPE_AUDIO /\
        0 < av_get_bits_per_sample env (AVCodec_id codec)
  end.

(** ** What an accepted descriptor looks like *)

(** A video track: its frame size is the collaborator's buffer size for
    the track's format and dimensions, and its bit rate is that size
    rescaled from bytes per tick to bits per second. *)
Definition video_ok (env : Collaborators) (st : AVStream) : Prop :=
  let par := codecpar st in
  let frame := av_image_get_buffer_size env (format par) (width par) (height par) 1 in
  0 <= frame /\
  num (time_base st) <> 0 /\
  bit_rate par = round_div (frame * 8 * den (time_base st)) (num (time_base st)).

(** An audio track: the bit depth is the registry's and positive, the
    block size is the truncated quotient of the [int] product, the tick is
    one sample. *)
Definition audio_ok (env : Collaborators) (st : AVStream) : Prop :=
  let par := codecpar st in
  bits_per_coded_sample par = av_get_bits_per_sample env (codec_id par) /\
  0 < bits_per_coded_sample par /\
  0 <= channels par < 256 /\
  block_align par =
    Z.quot (cast_int32 (bits_per_coded_sample par * channels par)) 8 /\
  time_base st = mkRational 1 (sample_rate par).

(** ** A small registry to run the reader on

    One pixel format of 4 bytes per pixel, ["rgba"], and one codec of 16
    bits per sample, ["pcm_s16le"]; every allocation is granted. *)
Definition demo_env : Collaborators :=
  mkCollab
    (fun name => if String.eqb name "rgba" then 26 else AV_PIX_FMT_NONE)
    (fun fmt w h align =>
       if (w <=? 0) || (h <=? 0) then AVERROR 22 else 4 * w * h)
    (fun name =>
       if String.eqb name "pcm_s16le"
       then Some (mkCodec 65536 AVMEDIA_TYPE_AUDIO) else None)
    (fun id => if id =? 65536 then 16 else 0)
    13
    (fun _ => true).

(* "rgba", time base 1/30, 2 x 2 *)
Definition demo_video : descriptor :=
  VideoDesc [x72; x67; x62; x61]
            [x01; x00; x00; x00] [x1e; x00; x00; x00]
            [x02; x00; x00; x00] [x02; x00; x00; x00].

(* "s16le", 44100 Hz, 2 channels *)
Definition demo_audio : descriptor :=
  AudioDesc [x73; x31; x36; x6c; x65] [x44; xac; x00; x00] x02.

(* "rgba", time base 0/30, 2 x 2 *)
Definition demo_video_zero_num : descriptor :=
  VideoDesc [x72; x67; x62; x61]
            [x00; x00; x00; x00] [x1e; x00; x00; x00]
            [x02; x00; x00; x00] [x02; x00; x00; x00].

(** ** The catalog that a table stands for *)

(** The stream that the header reader builds from an acceptable descriptor
    when it is the one of index [idx]. *)
Definition stream_of (env : Collaborators) (idx : nat) (d : descriptor) : AVStream :=
  match d with
  | VideoDesc name n d w h =>
      let fmt := av_get_pix_fmt env (string_of_list_byte name) in
      let wv := cast_int32 (rl_value w) in
      let hv := cast_int32 (rl_value h) in
      let tb := mkRational (cast_int32 (rl_value n)) (cast_int32 (rl_value d)) in
      let frame := av_image_get_buffer_size env fmt wv hv 1 in
      mkStream (Z.of_nat idx)
               (mkPar AVMEDIA_TYPE_VIDEO (AV_CODEC_ID_RAWVIDEO env) fmt wv hv
                      (round_div (frame * 8 * den tb) (num tb)) 0 0 0 0)
               tb 64
  | AudioDesc name rate ch =>
      match avcodec_find_decoder_by_name env
              (String.append "pcm_" (string_of_list_byte name)) with
      | Some codec =>
          let bits := av_get_bits_per_sample env (AVCodec_id codec) in
          let rt := cast_int32 (rl_value rate) in
          mkStream (Z.of_nat idx)
                   (mkPar AVMEDIA_TYPE_AUDIO (AVCodec_id codec) (- 1) 0 0 0
                          rt (byte_val ch) bits
                          (Z.quot (cast_int32 (bits * byte_val ch)) 8))
                   (mkRational 1 rt) 64
      | None => mkStream (Z.of_nat idx) default_codecpar (mkRational 0 1) 0
      end
  end.

Fixpoint catalog_from (env : Collaborators) (start : nat) (ds : list descriptor)
  : list AVStream :=
  match ds with
  | [] => []
  | d :: ds' => stream_of env start d :: catalog_from env (S start) ds'
  end.

(** ** The layout written from values *)

Definition byte_of_Z (z : Z) : byte :=
  match Byte.of_N (Z.to_N (z mod 256)) with
  | Some b => b
  | None => x00
  end.

(** The [n] bytes of a little-endian field that holds [v]. *)
Fixpoint le_bytes (n : nat) (v : Z) : list byte :=
  match n with
  | O => []
  | S n' => byte_of_Z v :: le_bytes n' (v / 256)
  end.

(** A packet as it lies in the file: stream index, size, timestamp,
    payload. *)
Definition mux_packet (pkt : AVPacket) : list byte :=
  byte_of_Z (stream_index pkt)
    :: le_bytes 4 (size pkt) ++ le_bytes 8 (pts pkt) ++ data pkt.

(** A packet that the layout can hold. *)
Definition packet_ok (pkt : AVPacket) : Prop :=
  0 <= stream_index pkt < 256 /\
  size pkt = Z.of_nat (length (data pkt)) /\
  size pkt < 2 ^ 31 /\
  - 2 ^ 63 <= pts pkt < 2 ^ 63 /\
  dts pkt = pts pkt.

(** [n] calls of the packet reader in a row, up to the first that fails. *)
Fixpoint read_packets (n : nat) (avctx : AVFormatContext) (pkt : AVPacket)
  : list AVPacket * AVFormatContext :=
  match n with
  | O => ([], avctx)
  | S n' =>
      let '(ret, c, p) := rawmux_read_packet avctx pkt in
      if ret <? 0 then ([], c)
      else
        let '(ps, c') := read_packets n' c pkt in
        (p :: ps, c')
  end.

(** A track given by its values: the name and the integer fields. *)
Inductive track :=
| VideoTrack (name : list byte) (tb_num tb_den w h : Z)
| AudioTrack (name : list byte) (rate ch : Z).

Definition mux_track (t : track) : descriptor :=
  match t with
  | VideoTrack name n d w h =>
      VideoDesc name (le_bytes 4 n) (le_bytes 4 d) (le_bytes 4 w) (le_bytes 4 h)
  | AudioTrack name rate ch =>
      AudioDesc name (le_bytes 4 rate) (byte_of_Z ch)
  end.

(** The header of a file with these tracks: magic, version 1, the
    descriptors, the terminator. *)
Definition mux_header (ts : list track) : list byte :=
  HEADER ++ x01 :: concat (map (fun t => encode (mux_track t)) ts) ++ [x00].

Definition int32_range (v : Z) : Prop := - 2 ^ 31 <= v < 2 ^ 31.

(** A track that the layout can hold and the registries know. *)
Definition track_ok (env : Collaborators) (t : track) : Prop :=
  match t with
  | VideoTrack name n d w h =>
      name_fits 31 name /\
      int32_range n /\ int32_range d /\ int32_range w /\ int32_range h /\
      av_get_pix_fmt env (string_of_list_byte name) <> AV_PIX_FMT_NONE /\
      0 <= av_image_get_buffer_size env
             (av_get_pix_fmt env (string_of_list_byte name)) w h 1 /\
      n <> 0
  | AudioTrack name rate ch =>
      name_fits 27 name /\
      int32_range rate /\ 0 <= ch < 256 /\
      exists codec,
        avcodec_find_decoder_by_name env
          (String.append "pcm_" (string_of_list_byte name)) = Some codec /\
        AVCodec_type codec = AVMEDIA_TYPE_AUDIO /\
        0 < av_get_bits_per_sample env (AVCodec_id codec)
  end.

(** The stream that a track is read back as. *)
Definition stream_of_track (env : Collaborators) (idx : nat) (t : track) : AVStream :=
  match t with
  | VideoTrack name n d w h =>
      let fmt := av_get_pix_fmt env (string_of_list_byte name) in
      let frame := av_image_get_buffer_size env fmt w h 1 in
      mkStream (Z.of_nat idx)
               (mkPar AVMEDIA_TYPE_VIDEO (AV_CODEC_ID_RAWVIDEO env) fmt w h
                      (round_div (frame * 8 * d) n) 0 0 0 0)
               (mkRational n d) 64
  | AudioTrack name rate ch =>
      match avcodec_find_decoder_by_name env
              (String.append "pcm_" (string_of_list_byte name)) with
      | Some codec =>
          let bits := av_get_bits_per_sample env (AVCodec_id codec) in
          mkStream (Z.of_nat idx)
                   (mkPar AVMEDIA_TYPE_AUDIO (AVCodec_id codec) (- 1) 0 0 0
                          rate ch bits (Z.quot (cast_int32 (bits * ch)) 8))
                   (mkRational 1 rate) 64
      | None => mkStream (Z.of_nat idx) default_codecpar (mkRational 0 1) 0
      end
  end.

Fixpoint tracks_from (env : Collaborators) (start : nat) (ts : list track)
  : list AVStream :=
  match ts with
  | [] => []
  | t :: ts' => stream_of_track env start t :: tracks_from env (S start) ts'
  end.

(** A second registry: it also knows a codec without a bit depth,
    ["pcm_zero"], and a name that is not an audio codec, ["pcm_video"];
    its allocator grants two streams. *)
Definition demo_env2 : Collaborators :=
  mkCollab
    (fun name => if String.eqb name "rgba" then 26 else AV_PIX_FMT_NONE)
    (fun fmt w h align =>
       if (w <=? 0) || (h <=? 0) then AVERROR 22 else 4 * w * h)
    (fun name =>
       if String.eqb name "pcm_s16le"
       then Some (mkCodec 65536 AVMEDIA_TYPE_AUDIO)
       else if String.eqb name "pcm_zero"
       then Some (mkCodec 7 AVMEDIA_TYPE_AUDIO)
       else if String.eqb name "pcm_video"
       then Some (mkCodec 13 AVMEDIA_TYPE_VIDEO)
       else None)
    (fun id => if id =? 65536 then 16 else 0)
    13
    (fun n => Nat.ltb n 2).

(** How a turn that has allocated the stream of index [idx] can end. *)
Definition turn_shape (env : Collaborators) (p : AVIOContext)
           (ss : list AVStream) (l : list log_msg) (idx : Z) (t : turn) : Prop :=
  match t with
  | Continue c' =>
      (length (pb c') <= length p)%nat /\ log c' = l /\
      exists st, streams c' = ss ++ [st] /\ index st = idx /\
                 pts_wrap_bits st = 64 /\
                 (codec_type (codecpar st) = AVMEDIA_TYPE_VIDEO /\
                  codec_id (codecpar st) = AV_CODEC_ID_RAWVIDEO env /\
                  format (codecpar st) <> AV_PIX_FMT_NONE \/
                  codec_type (codecpar st) = AVMEDIA_TYPE_AUDIO /\
                  exists suffix codec,
                    avcodec_find_decoder_by_name env
                      (String.append "pcm_" suffix) = Some codec /\
                    AVCodec_type codec = AVMEDIA_TYPE_AUDIO /\
                    codec_id (codecpar st) = AVCodec_id codec /\
                    bits_per_coded_sample (codecpar st) =
                      av_get_bits_per_sample env (AVCodec_id codec))
  | Done r c' =>
      (length (pb c') <= length p)%nat /\
      (exists st, streams c' = ss ++ [st] /\ index st = idx) /\
      (log c' = l /\ r <> Return 0 \/
       (exists m, log c' = l ++ [m]) /\ r = Return AVERROR_INVALIDDATA)
  end.

Arguments cast_int32 : simpl never.
Arguments cast_int64 : simpl never.
Arguments cast_uint32 : simpl never.
Arguments byte_val : simpl never.
Arguments round_div : simpl never.
Arguments av_rescale_q : simpl never.

(** * Properties *)

(** ** Machine integers and bytes *)

Lemma byte_val_range (b : byte) : 0 <= byte_val b < 256.
Proof.
  unfold byte_val. pose proof (Byte.to_N_bounded b) as H.
  split; [apply N2Z.is_nonneg|].
  apply N2Z.inj_le in H. change (Z.of_N 255) with 255 in H. lia.
Qed.

Lemma byte_val_x00 (b : byte) : byte_val b = 0 <-> b = x00.
Proof.
  split; [|intros ->; reflexivity].
  unfold byte_val; intros H.
  assert (E : Byte.to_N b = Byte.to_N x00) by (simpl; lia).
  apply (f_equal Byte.of_N) in E. rewrite !Byte.of_to_N in E. congruence.
Qed.

Lemma eqb_x00 (b : byte) : Byte.eqb b x00 = false <-> b <> x00.
Proof.
  split.
  - apply Byte.eqb_false.
  - intros H. destruct (Byte.eqb b x00) eqn:E; [|reflexivity].
    apply Byte.byte_dec_bl in E. contradiction.
Qed.

Lemma cast_int32_range (z : Z) : - 2 ^ 31 <= cast_int32 z < 2 ^ 31.
Proof. unfold cast_int32. pose proof (Z.mod_pos_bound (z + 2 ^ 31) (2 ^ 32)). lia. Qed.

Lemma cast_int32_small (z : Z) : - 2 ^ 31 <= z < 2 ^ 31 -> cast_int32 z = z.
Proof. intros H. unfold cast_int32. rewrite Z.mod_small; lia. Qed.

Lemma cast_int32_high (z : Z) : 2 ^ 31 <= z < 2 ^ 32 -> cast_int32 z = z - 2 ^ 32.
Proof.
  intros H. unfold cast_int32.
  replace (z + 2 ^ 31) with ((z - 2 ^ 31) + 1 * 2 ^ 32) by lia.
  rewrite Z.mod_add by lia. rewrite Z.mod_small; lia.
Qed.

Lemma cast_int32_uint32 (z : Z) : cast_int32 (cast_uint32 z) = cast_int32 z.
Proof.
  unfold cast_int32, cast_uint32.
  rewrite Zplus_mod_idemp_l. reflexivity.
Qed.

Lemma cast_int32_idem (z : Z) : cast_int32 (cast_int32 z) = cast_int32 z.
Proof. apply cast_int32_small, cast_int32_range. Qed.

Lemma land_shifted_0 (a b n : Z) :
  0 <= n -> 0 <= a < 2 ^ n -> Z.land a (b * 2 ^ n) = 0.
Proof.
  intros Hn Ha. apply Z.bits_inj'; intros i Hi.
  rewrite Z.land_spec, Z.bits_0. destruct (Z.ltb_spec i n) as [Hlt|Hge].
  - rewrite Z.mul_pow2_bits_low by lia. apply andb_false_r.
  - replace (Z.testbit a i) with false; [reflexivity|].
    symmetry. destruct (Z.eq_dec a 0) as [->|Hz]; [apply Z.bits_0|].
    apply Z.bits_above_log2; [lia|].
    assert (Z.log2 a < n) by (apply Z.log2_lt_pow2; lia). lia.
Qed.

Lemma lor_shiftl_add (a b n : Z) :
  0 <= n -> 0 <= a < 2 ^ n -> Z.lor a (Z.shiftl b n) = a + 2 ^ n * b.
Proof.
  intros Hn Ha. rewrite Z.shiftl_mul_pow2 by lia.
  pose proof (land_shifted_0 a b n Hn Ha) as L.
  rewrite <- Z.lxor_lor by exact L.
  rewrite <- Z.add_nocarry_lxor by exact L. ring.
Qed.

Lemma rl_value_range (bs : list byte) :
  0 <= rl_value bs < 2 ^ (8 * Z.of_nat (length bs)).
Proof.
  induction bs as [|b bs IH]; [simpl; lia|].
  cbn [rl_value length]. pose proof (byte_val_range b).
  replace (8 * Z.of_nat (S (length bs))) with (8 + 8 * Z.of_nat (length bs)) by lia.
  rewrite Z.pow_add_r by lia. change (2 ^ 8) with 256. nia.
Qed.

Lemma rl_value_app (a b : list byte) :
  rl_value (a ++ b) = rl_value a + 2 ^ (8 * Z.of_nat (length a)) * rl_value b.
Proof.
  induction a as [|x a IH].
  { cbn [app rl_value length]. change (2 ^ (8 * Z.of_nat 0)) with 1. lia. }
  cbn [rl_value length app]. rewrite IH.
  replace (8 * Z.of_nat (S (length a))) with (8 + 8 * Z.of_nat (length a)) by lia.
  rewrite Z.pow_add_r by lia. change (2 ^ 8) with 256. ring.
Qed.

(** ** The byte reader *)

Lemma avio_r8_cons (b : byte) (s : AVIOContext) : avio_r8 (b :: s) = (byte_val b, s).
Proof. reflexivity. Qed.

Lemma avio_r8_range (s : AVIOContext) : 0 <= fst (avio_r8 s) < 256.
Proof. destruct s as [|b s]; [vm_compute; split; congruence|]. apply byte_val_range. Qed.

Lemma avio_rl16_app (bs s : list byte) :
  length bs = 2%nat -> avio_rl16 (bs ++ s) = (rl_value bs, s).
Proof.
  destruct bs as [|a [|b [|]]]; try discriminate. intros _.
  cbn [app rl_value]. unfold avio_rl16. rewrite !avio_r8_cons.
  rewrite lor_shiftl_add;
    [|lia|change (2 ^ 8) with 256; apply byte_val_range].
  f_equal. change (2 ^ 8) with 256. lia.
Qed.

Lemma avio_rl32_app (bs s : list byte) :
  length bs = 4%nat -> avio_rl32 (bs ++ s) = (rl_value bs, s).
Proof.
  intros H.
  rewrite <- (firstn_skipn 2 bs), <- app_assoc. unfold avio_rl32.
  assert (length (firstn 2 bs) = 2%nat) by (rewrite length_firstn; lia).
  assert (length (skipn 2 bs) = 2%nat) by (rewrite length_skipn; lia).
  rewrite avio_rl16_app by assumption. rewrite avio_rl16_app by assumption.
  rewrite lor_shiftl_add.
  - rewrite rl_value_app. repeat f_equal. lia.
  - lia.
  - pose proof (rl_value_range (firstn 2 bs)) as R.
    replace (8 * Z.of_nat (length (firstn 2 bs))) with 16 in R by lia. exact R.
Qed.

Lemma avio_rl64_app (bs s : list byte) :
  length bs = 8%nat -> avio_rl64 (bs ++ s) = (rl_value bs, s).
Proof.
  intros H.
  rewrite <- (firstn_skipn 4 bs), <- app_assoc. unfold avio_rl64.
  assert (length (firstn 4 bs) = 4%nat) by (rewrite length_firstn; lia).
  assert (length (skipn 4 bs) = 4%nat) by (rewrite length_skipn; lia).
  rewrite avio_rl32_app by assumption. rewrite avio_rl32_app by assumption.
  rewrite lor_shiftl_add.
  - rewrite rl_value_app. repeat f_equal. lia.
  - lia.
  - pose proof (rl_value_range (firstn 4 bs)) as R.
    replace (8 * Z.of_nat (length (firstn 4 bs))) with 32 in R by lia. exact R.
Qed.

Lemma byte_val_inj (x y : byte) : byte_val x = byte_val y -> x = y.
Proof.
  unfold byte_val; intros H. apply N2Z.inj in H.
  apply (f_equal Byte.of_N) in H. rewrite !Byte.of_to_N in H. congruence.
Qed.

(** ** The format sniffer *)

Lemma memcmp_0_iff (n : nat) : forall a b : list byte,
  (n <= length a)%nat -> (n <= length b)%nat ->
  (memcmp a b n = 0 <-> firstn n a = firstn n b).
Proof.
  induction n as [|n IH]; intros a b Ha Hb.
  - simpl. split; reflexivity.
  - destruct a as [|x a]; [simpl in Ha; lia|].
    destruct b as [|y b]; [simpl in Hb; lia|].
    cbn [memcmp firstn]. simpl in Ha, Hb.
    destruct (Byte.eqb x y) eqn:E.
    + apply Byte.byte_dec_bl in E. subst y.
      rewrite IH by lia. split; [intros ->; reflexivity|congruence].
    + apply Byte.eqb_false in E. split.
      * intros H. exfalso. apply E, byte_val_inj. lia.
      * intros H. congruence.
Qed.

(** C5.  A buffer shorter than the 6-byte magic, or whose first 6 bytes
    are not the magic, gets the score 0; a buffer that starts with the
    magic gets [AVPROBE_SCORE_MAX], whatever follows. *)
Theorem rawmux_read_probe_score (buf : list byte) :
  ((length buf < 6)%nat \/ firstn 6 buf <> HEADER -> rawmux_read_probe buf = 0) /\
  (firstn 6 buf = HEADER -> rawmux_read_probe buf = AVPROBE_SCORE_MAX).
Proof.
  unfold rawmux_read_probe.
  change sizeof_HEADER with 6%nat.
  destruct (Z.ltb_spec (Z.of_nat (length buf)) (Z.of_nat 6)) as [Hs|Hl].
  - cbn [orb]. split; [reflexivity|].
    intros H. apply (f_equal (@length byte)) in H.
    rewrite length_firstn in H. change (length HEADER) with 6%nat in H. lia.
  - cbn [orb].
    assert (M : memcmp HEADER buf 6 = 0 <-> firstn 6 HEADER = firstn 6 buf)
      by (apply memcmp_0_iff; simpl; lia).
    change (firstn 6 HEADER) with HEADER in M.
    destruct (Z.eqb_spec (memcmp HEADER buf 6) 0) as [E|E]; cbn [negb].
    + split; [|reflexivity].
      intros [H|H]; [lia|]. apply M in E. congruence.
    + split; [reflexivity|].
      intros H. exfalso. apply E, M. congruence.
Qed.

Lemma rawmux_read_probe_score_witness :
  rawmux_read_probe [x72; x61; x77; x6d; x75] = 0 /\
  rawmux_read_probe [x72; x61; x77; x6d; x75; x58; x01] = 0 /\
  rawmux_read_probe [x72; x61; x77; x6d; x75; x78; x01; x00] = AVPROBE_SCORE_MAX.
Proof.
  split; [|split].
  - apply (proj1 (rawmux_read_probe_score [x72; x61; x77; x6d; x75])).
    left. simpl. lia.
  - apply (proj1 (rawmux_read_probe_score [x72; x61; x77; x6d; x75; x58; x01])).
    right. simpl. unfold HEADER. congruence.
  - apply (proj2 (rawmux_read_probe_score
                    [x72; x61; x77; x6d; x75; x78; x01; x00])).
    reflexivity.
Defined.

(** ** The packet demultiplexer *)

Lemma firstn_length_app {A} (l r : list A) : firstn (length l) (l ++ r) = l.
Proof. induction l as [|x l IH]; simpl; [reflexivity|now rewrite IH]. Qed.

Lemma skipn_length_app {A} (l r : list A) : skipn (length l) (l ++ r) = r.
Proof. induction l as [|x l IH]; simpl; [reflexivity|exact IH]. Qed.

(** The reader on an input that holds the 13 bytes of a packet header. *)
Lemma rawmux_read_packet_framed (avctx : AVFormatContext) (pkt : AVPacket)
      (s : byte) (szb tsb rest : list byte) :
  pb avctx = s :: szb ++ tsb ++ rest ->
  length szb = 4%nat -> length tsb = 8%nat ->
  rawmux_read_packet avctx pkt =
  let '(ret, s', pkt') := av_get_packet rest pkt (cast_int32 (rl_value szb)) in
  if ret <? 0 then (ret, set_pb s' avctx, pkt')
  else (0, set_pb s' avctx,
        set_stream_index (byte_val s)
          (set_pts (cast_int64 (rl_value tsb))
             (set_dts (cast_int64 (rl_value tsb)) pkt'))).
Proof.
  intros Hpb Hsz Hts. unfold rawmux_read_packet. rewrite Hpb.
  rewrite avio_r8_cons, avio_rl32_app, avio_rl64_app by assumption.
  reflexivity.
Qed.

Lemma av_get_packet_refused (s : AVIOContext) (pkt : AVPacket) (n : Z) :
  n < 0 \/ Z.of_nat (length s) < n ->
  av_get_packet s pkt n =
  (AVERROR_EOF, (if n <? 0 then s else []), set_payload [] 0 pkt).
Proof.
  intros H. unfold av_get_packet.
  destruct (Z.leb_spec 0 n); destruct (Z.leb_spec n (Z.of_nat (length s)));
    cbn [andb]; try reflexivity; lia.
Qed.

Lemma av_get_packet_whole (payload rest : list byte) (pkt : AVPacket) :
  av_get_packet (payload ++ rest) pkt (Z.of_nat (length payload)) =
  (Z.of_nat (length payload), rest,
   set_payload payload (Z.of_nat (length payload)) pkt).
Proof.
  unfold av_get_packet. rewrite Nat2Z.id, firstn_length_app, skipn_length_app.
  destruct (Z.leb_spec 0 (Z.of_nat (length payload))) as [_|H0]; [|lia].
  destruct (Z.leb_spec (Z.of_nat (length payload))
                       (Z.of_nat (length (payload ++ rest)))) as [_|H1];
    [reflexivity|].
  rewrite length_app in H1. lia.
Qed.

(** C1.  When the size field of a packet header is larger than the number
    of bytes that follow the header, the packet reader fails with the
    end-of-input error and the packet carries no payload. *)
Theorem rawmux_read_packet_short_read
        (avctx : AVFormatContext) (pkt : AVPacket)
        (s : byte) (szb tsb rest : list byte) :
  pb avctx = s :: szb ++ tsb ++ rest ->
  length szb = 4%nat -> length tsb = 8%nat ->
  Z.of_nat (length rest) < rl_value szb ->
  AVERROR_EOF < 0 /\
  exists c' pkt',
    rawmux_read_packet avctx pkt = (AVERROR_EOF, c', pkt') /\
    data pkt' = [] /\ size pkt' = 0 /\
    pts pkt' = pts pkt /\ dts pkt' = dts pkt /\
    stream_index pkt' = stream_index pkt.
Proof.
  intros Hpb Hsz Hts Hshort. split; [reflexivity|].
  rewrite (rawmux_read_packet_framed _ _ _ _ _ _ Hpb Hsz Hts).
  pose proof (rl_value_range szb) as R. rewrite Hsz in R.
  change (2 ^ (8 * Z.of_nat 4)) with (2 ^ 32) in R.
  rewrite av_get_packet_refused.
  - change (AVERROR_EOF <? 0) with true. cbv iota.
    do 2 eexists. split; [reflexivity|]. cbn. repeat split; reflexivity.
  - destruct (Z.lt_ge_cases (rl_value szb) (2 ^ 31)) as [Hlo|Hhi].
    + right. rewrite cast_int32_small by lia. exact Hshort.
    + left. rewrite cast_int32_high by lia. lia.
Qed.

Lemma rawmux_read_packet_short_read_witness :
  AVERROR_EOF < 0 /\
  exists c' pkt',
    rawmux_read_packet
      (mkCtx [x00; x03; x00; x00; x00;
              x01; x00; x00; x00; x00; x00; x00; x00; xaa; xbb] [] [])
      (mkPacket [] 0 0 0 0) = (AVERROR_EOF, c', pkt') /\
    data pkt' = [] /\ size pkt' = 0 /\
    pts pkt' = 0 /\ dts pkt' = 0 /\ stream_index pkt' = 0.
Proof.
  apply (rawmux_read_packet_short_read
           (mkCtx [x00; x03; x00; x00; x00;
                   x01; x00; x00; x00; x00; x00; x00; x00; xaa; xbb] [] [])
           (mkPacket [] 0 0 0 0)
           x00 [x03; x00; x00; x00]
           [x01; x00; x00; x00; x00; x00; x00; x00] [xaa; xbb]).
  - reflexivity.
  - reflexivity.
  - reflexivity.
  - vm_compute. reflexivity.
Defined.

(** C9.  The size field is kept in an [int]: a packet header that declares
    2^31 bytes or more gives a negative [size], and the call fails without
    a payload and without reading past the header, however many bytes
    follow. *)
Theorem rawmux_read_packet_negative_size
        (avctx : AVFormatContext) (pkt : AVPacket)
        (s : byte) (szb tsb rest : list byte) :
  pb avctx = s :: szb ++ tsb ++ rest ->
  length szb = 4%nat -> length tsb = 8%nat ->
  2 ^ 31 <= rl_value szb ->
  cast_int32 (rl_value szb) = rl_value szb - 2 ^ 32 /\
  cast_int32 (rl_value szb) < 0 /\
  exists ret pkt',
    rawmux_read_packet avctx pkt = (ret, set_pb rest avctx, pkt') /\
    ret < 0 /\ data pkt' = [] /\ size pkt' = 0.
Proof.
  intros Hpb Hsz Hts Hbig.
  pose proof (rl_value_range szb) as R. rewrite Hsz in R.
  change (2 ^ (8 * Z.of_nat 4)) with (2 ^ 32) in R.
  assert (E : cast_int32 (rl_value szb) = rl_value szb - 2 ^ 32)
    by (apply cast_int32_high; lia).
  split; [exact E|]. split; [lia|].
  rewrite (rawmux_read_packet_framed _ _ _ _ _ _ Hpb Hsz Hts).
  rewrite av_get_packet_refused by lia.
  change (AVERROR_EOF <? 0) with true. cbv iota.
  destruct (Z.ltb_spec (cast_int32 (rl_value szb)) 0); [|lia].
  exists AVERROR_EOF, (set_payload [] 0 pkt).
  repeat split; reflexivity.
Qed.

Lemma rawmux_read_packet_negative_size_witness :
  exists ret pkt',
    rawmux_read_packet
      (mkCtx [x05; x00; x00; x00; x80;
              x01; x00; x00; x00; x00; x00; x00; x00; xaa; xbb] [] [])
      (mkPacket [] 0 0 0 0) = (ret, mkCtx [xaa; xbb] [] [], pkt') /\
    ret < 0 /\ data pkt' = [] /\ size pkt' = 0.
Proof.
  apply (rawmux_read_packet_negative_size
           (mkCtx [x05; x00; x00; x00; x80;
                   x01; x00; x00; x00; x00; x00; x00; x00; xaa; xbb] [] [])
           (mkPacket [] 0 0 0 0)
           x05 [x00; x00; x00; x80]
           [x01; x00; x00; x00; x00; x00; x00; x00] [xaa; xbb]).
  - reflexivity.
  - reflexivity.
  - reflexivity.
  - vm_compute. congruence.
Defined.

(** C8.  A successful call gives the packet the timestamp of the header as
    both [pts] and [dts] and the header's byte as [stream_index]; the
    catalog is never consulted, so a well-framed packet is returned
    whatever its stream index and whatever streams the context holds. *)
Theorem rawmux_read_packet_fields (avctx : AVFormatContext) (pkt : AVPacket) :
  (forall c' pkt',
      rawmux_read_packet avctx pkt = (0, c', pkt') ->
      pts pkt' = dts pkt' /\
      pts pkt' =
        cast_int64 (fst (avio_rl64 (snd (avio_rl32 (snd (avio_r8 (pb avctx))))))) /\
      stream_index pkt' = fst (avio_r8 (pb avctx))) /\
  (forall (s : byte) (szb tsb payload rest : list byte),
      pb avctx = s :: szb ++ tsb ++ payload ++ rest ->
      length szb = 4%nat -> length tsb = 8%nat ->
      rl_value szb = Z.of_nat (length payload) ->
      rl_value szb < 2 ^ 31 ->
      rawmux_read_packet avctx pkt =
      (0, set_pb rest avctx,
       mkPacket payload (Z.of_nat (length payload))
                (cast_int64 (rl_value tsb)) (cast_int64 (rl_value tsb))
                (byte_val s))) /\
  (forall ss : list AVStream,
      let r := rawmux_read_packet (mkCtx (pb avctx) ss (log avctx)) pkt in
      let r0 := rawmux_read_packet avctx pkt in
      fst (fst r) = fst (fst r0) /\ snd r = snd r0 /\
      pb (snd (fst r)) = pb (snd (fst r0))).
Proof.
  split; [|split].
  - intros c' pkt'. unfold rawmux_read_packet.
    destruct (avio_r8 (pb avctx)) as [stream s1]. cbn [fst snd].
    destruct (avio_rl32 s1) as [sz s2]. cbn [fst snd].
    destruct (avio_rl64 s2) as [ts s3]. cbn [fst snd].
    destruct (av_get_packet s3 pkt (cast_int32 sz)) as [[ret s4] p].
    destruct (Z.ltb_spec ret 0) as [Hneg|Hpos]; intros H; inversion H; subst.
    + lia.
    + cbn. repeat split; reflexivity.
  - intros s szb tsb payload rest Hpb Hsz Hts Hlen Hlt.
    rewrite (rawmux_read_packet_framed _ _ _ _ _ _ Hpb Hsz Hts).
    pose proof (rl_value_range szb) as R.
    rewrite cast_int32_small by lia. rewrite Hlen, av_get_packet_whole.
    destruct (Z.ltb_spec (Z.of_nat (length payload)) 0); [lia|]. reflexivity.
  - intros ss. unfold rawmux_read_packet. cbn [pb].
    destruct (avio_r8 (pb avctx)) as [stream s1].
    destruct (avio_rl32 s1) as [sz s2].
    destruct (avio_rl64 s2) as [ts s3].
    destruct (av_get_packet s3 pkt (cast_int32 sz)) as [[ret s4] p].
    destruct (ret <? 0); cbn; repeat split; reflexivity.
Qed.

Lemma rawmux_read_packet_fields_witness :
  rawmux_read_packet
    (mkCtx [x07; x02; x00; x00; x00;
            xfe; xff; xff; xff; xff; xff; xff; xff; xaa; xbb; xcc] [] [])
    (mkPacket [] 0 0 0 0)
  = (0, mkCtx [xcc] [] [], mkPacket [xaa; xbb] 2 (- 2) (- 2) 7).
Proof.
  apply (proj1 (proj2 (rawmux_read_packet_fields
           (mkCtx [x07; x02; x00; x00; x00;
                   xfe; xff; xff; xff; xff; xff; xff; xff; xaa; xbb; xcc] [] [])
           (mkPacket [] 0 0 0 0)))
           x07 [x02; x00; x00; x00]
           [xfe; xff; xff; xff; xff; xff; xff; xff] [xaa; xbb] [xcc]).
  - reflexivity.
  - reflexivity.
  - reflexivity.
  - reflexivity.
  - vm_compute. reflexivity.
Defined.

(** ** Reads never move the cursor back *)

Lemma read_byte_length (s s' : AVIOContext) (b : byte) :
  read_byte s = (b, s') -> (length s' <= length s)%nat.
Proof.
  destruct s as [|x s]; cbn [read_byte]; intros H; inversion H; subst; simpl; lia.
Qed.

Lemma avio_r8_length (s s' : AVIOContext) (v : Z) :
  avio_r8 s = (v, s') -> (length s' <= length s)%nat.
Proof.
  unfold avio_r8. destruct (read_byte s) as [b s1] eqn:E.
  intros H; inversion H; subst. eapply read_byte_length; eassumption.
Qed.

Lemma avio_rl16_length (s s' : AVIOContext) (v : Z) :
  avio_rl16 s = (v, s') -> (length s' <= length s)%nat.
Proof.
  unfold avio_rl16.
  destruct (avio_r8 s) as [a s1] eqn:E1. destruct (avio_r8 s1) as [b s2] eqn:E2.
  intros H; inversion H; subst.
  apply avio_r8_length in E1, E2. lia.
Qed.

Lemma avio_rl32_length (s s' : AVIOContext) (v : Z) :
  avio_rl32 s = (v, s') -> (length s' <= length s)%nat.
Proof.
  unfold avio_rl32.
  destruct (avio_rl16 s) as [a s1] eqn:E1. destruct (avio_rl16 s1) as [b s2] eqn:E2.
  intros H; inversion H; subst.
  apply avio_rl16_length in E1, E2. lia.
Qed.

Lemma get_str_keep_length (n : nat) : forall s cs nul s',
  get_str_keep n s = (cs, nul, s') -> (length s' <= length s)%nat.
Proof.
  induction n as [|n IH]; intros s cs nul s'; cbn [get_str_keep].
  - intros H; inversion H; subst; lia.
  - destruct (read_byte s) as [c s1] eqn:E. apply read_byte_length in E.
    destruct (Byte.eqb c x00).
    + intros H; inversion H; subst; lia.
    + destruct (get_str_keep n s1) as [[cs' nul'] s2] eqn:E2.
      apply IH in E2. intros H; inversion H; subst; lia.
Qed.

Lemma get_str_drop_length (n : nat) : forall s,
  (length (get_str_drop n s) <= length s)%nat.
Proof.
  induction n as [|n IH]; intros s; cbn [get_str_drop]; [lia|].
  destruct (read_byte s) as [c s1] eqn:E. apply read_byte_length in E.
  destruct (Byte.eqb c x00); [lia|]. specialize (IH s1). lia.
Qed.

Lemma avio_get_str_length (s s' : AVIOContext) (maxlen buflen : nat) cs :
  avio_get_str s maxlen buflen = (cs, s') -> (length s' <= length s)%nat.
Proof.
  unfold avio_get_str.
  destruct (get_str_keep _ s) as [[cs' nul] s1] eqn:E.
  apply get_str_keep_length in E.
  destruct nul; intros H; inversion H; subst; [lia|].
  pose proof (get_str_drop_length (maxlen - Nat.min (buflen - 1) maxlen) s1). lia.
Qed.

(** ** String fields *)

Lemma get_str_keep_nul (n : nat) : forall name rest,
  Forall (fun b => b <> x00) name -> (length name < n)%nat ->
  get_str_keep n (name ++ x00 :: rest) = (name, true, rest).
Proof.
  induction n as [|n IH]; intros name rest Hn Hl; [lia|].
  destruct name as [|c name]; cbn [get_str_keep app read_byte].
  - reflexivity.
  - inversion Hn as [|? ? Hc Hn']; subst.
    apply eqb_x00 in Hc. rewrite Hc.
    rewrite IH by (simpl in Hl; auto; lia). reflexivity.
Qed.

Lemma get_str_keep_full (name s : list byte) :
  Forall (fun b => b <> x00) name ->
  get_str_keep (length name) (name ++ s) = (name, false, s).
Proof.
  induction name as [|c name IH]; intros Hn; [reflexivity|].
  inversion Hn as [|? ? Hc Hn']; subst.
  cbn [length get_str_keep app read_byte].
  apply eqb_x00 in Hc. rewrite Hc. rewrite IH by assumption. reflexivity.
Qed.

(** A name that fits its field is read back whole, and the cursor stops
    after its NUL. *)
Lemma avio_get_str_name (k : nat) (name rest : list byte) :
  name_fits k name ->
  avio_get_str (name ++ x00 :: rest) (S k) (S k) = (name, rest).
Proof.
  intros [Hn Hl]. unfold avio_get_str.
  replace (Nat.min (S k - 1) (S k)) with k by lia.
  destruct (Nat.eq_dec (length name) k) as [E|E].
  - subst k. rewrite get_str_keep_full by assumption.
    replace (S (length name) - length name)%nat with 1%nat by lia.
    reflexivity.
  - rewrite get_str_keep_nul by (auto; lia). reflexivity.
Qed.

(** ** One turn of the stream-table loop *)

Section HeaderFacts.
Variable env : Collaborators.

Lemma av_rescale_q_frame (a : Z) (tb : AVRational) :
  av_rescale_q a (mkRational 8 1) tb =
  if num tb =? 0 then None else Some (round_div (a * 8 * den tb) (num tb)).
Proof.
  unfold av_rescale_q. cbn [num den].
  rewrite Z.mul_1_r. destruct (num tb =? 0); [reflexivity|].
  rewrite Z.mul_assoc. reflexivity.
Qed.

Lemma length_store_stream (st : AVStream) (c : AVFormatContext) :
  streams c <> [] ->
  length (streams (store_stream st c)) = length (streams c).
Proof.
  intros H. cbn [store_stream streams].
  rewrite (app_removelast_last st H) at 2.
  rewrite !length_app. reflexivity.
Qed.

Lemma video_stream_spec (st : AVStream) (c : AVFormatContext) :
  match video_stream env st c with
  | Continue c' =>
      (length (pb c') <= length (pb c))%nat /\ log c' = log c /\
      exists st', streams c' = removelast (streams c) ++ [st'] /\
                  index st' = index st /\
                  codec_type (codecpar st') = AVMEDIA_TYPE_VIDEO /\
                  video_ok env st'
  | Done r c' =>
      r <> Return 0 /\
      (In Too_many_streams (log c') -> In Too_many_streams (log c)) /\
      (streams c <> [] -> length (streams c') = length (streams c))
  end.
Proof.
  unfold video_stream.
  destruct (avio_get_str (pb c) 32 32) as [name s1] eqn:E1.
  cbn [format set_format].
  destruct (Z.eqb_spec (av_get_pix_fmt env (string_of_list_byte name))
                       AV_PIX_FMT_NONE) as [Hf|Hf].
  { split; [discriminate|]. cbn [log av_log store_stream set_pb]. split.
    - intros H. apply in_app_or in H.
      destruct H as [H|[H|[]]]; [exact H|discriminate].
    - intros Hne; exact (length_store_stream _ (set_pb _ c) Hne). }
  destruct (avio_rl32 s1) as [n s2] eqn:E2.
  destruct (avio_rl32 s2) as [d s3] eqn:E3.
  destruct (avio_rl32 s3) as [w s4] eqn:E4.
  destruct (avio_rl32 s4) as [h s5] eqn:E5.
  cbn.
  set (fmt := av_get_pix_fmt env (string_of_list_byte name)) in *.
  set (frame := av_image_get_buffer_size env fmt (cast_int32 w) (cast_int32 h) 1).
  destruct (Z.ltb_spec frame 0) as [Hneg|Hpos].
  { split; [intros H; inversion H; lia|]. split; [cbn; auto|].
    intros Hne; exact (length_store_stream _ (set_pb _ c) Hne). }
  rewrite av_rescale_q_frame. cbn [num den].
  rewrite !cast_int32_uint32, !cast_int32_idem.
  destruct (Z.eqb_spec (cast_int32 n) 0) as [Hz|Hnz].
  { split; [discriminate|]. split; [cbn; auto|].
    intros Hne; exact (length_store_stream _ (set_pb _ c) Hne). }
  cbn. split; [|split; [reflexivity|]].
  { apply avio_get_str_length in E1.
    apply avio_rl32_length in E2, E3, E4, E5. lia. }
  eexists. split; [reflexivity|]. split; [reflexivity|]. split; [reflexivity|].
  unfold video_ok. cbn. rewrite !cast_int32_uint32, !cast_int32_idem.
  repeat split; assumption || reflexivity.
Qed.

Lemma audio_stream_spec (st : AVStream) (c : AVFormatContext) :
  match audio_stream env st c with
  | Continue c' =>
      (length (pb c') <= length (pb c))%nat /\ log c' = log c /\
      exists st', streams c' = removelast (streams c) ++ [st'] /\
                  index st' = index st /\
                  codec_type (codecpar st') = AVMEDIA_TYPE_AUDIO /\
                  audio_ok env st'
  | Done r c' =>
      r <> Return 0 /\
      (In Too_many_streams (log c') -> In Too_many_streams (log c)) /\
      (streams c <> [] -> length (streams c') = length (streams c))
  end.
Proof.
  unfold audio_stream.
  destruct (avio_get_str (pb c) (32 - 4) (32 - 4)) as [suffix s1] eqn:E1.
  set (codec_name := String.append "pcm_" (string_of_list_byte suffix)).
  assert (Hlog : forall m p ss l,
             m <> Too_many_streams ->
             In Too_many_streams (log (av_log m (mkCtx p ss l))) ->
             In Too_many_streams l).
  { intros m p ss l Hm H. cbn in H. apply in_app_or in H.
    destruct H as [H|[H|[]]]; [exact H|congruence]. }
  destruct (avcodec_find_decoder_by_name env codec_name) as [codec|].
  2:{ split; [discriminate|]. split; [apply Hlog; discriminate|reflexivity]. }
  destruct (AVMediaType_eqb (AVCodec_type codec) AVMEDIA_TYPE_AUDIO); cbn [negb].
  2:{ split; [discriminate|]. split; [apply Hlog; discriminate|reflexivity]. }
  destruct (avio_rl32 s1) as [rate s2] eqn:E2.
  destruct (avio_r8 s2) as [ch s3] eqn:E3.
  cbn.
  set (bits := av_get_bits_per_sample env (AVCodec_id codec)).
  destruct (Z.gtb_spec bits 0) as [Hpos|Hneg].
  2:{ split; [discriminate|]. split; [cbn; auto|].
      intros Hne; exact (length_store_stream _ (set_pb _ c) Hne). }
  cbn. split; [|split; [reflexivity|]].
  { apply avio_get_str_length in E1. apply avio_rl32_length in E2.
    apply avio_r8_length in E3. lia. }
  eexists. split; [reflexivity|]. split; [reflexivity|]. split; [reflexivity|].
  unfold audio_ok. cbn. rewrite cast_int32_uint32, cast_int32_idem.
  pose proof (avio_r8_range s2) as R. rewrite E3 in R. cbn in R.
  repeat split; try reflexivity; try lia.
Qed.

Lemma stream_turn_spec (c : AVFormatContext) :
  match stream_turn env c with
  | Continue c' =>
      (length (pb c') < length (pb c))%nat /\ log c' = log c /\
      exists st, streams c' = streams c ++ [st] /\
                 index st = Z.of_nat (length (streams c)) /\
                 (length (streams c) <= 255)%nat /\
                 (codec_type (codecpar st) = AVMEDIA_TYPE_VIDEO /\ video_ok env st \/
                  codec_type (codecpar st) = AVMEDIA_TYPE_AUDIO /\ audio_ok env st)
  | Done r c' =>
      (r = Return 0 -> streams c' = streams c /\ log c' = log c) /\
      (In Too_many_streams (log c') ->
       In Too_many_streams (log c) \/
       r = Return AVERROR_INVALIDDATA /\
       length (streams c') = S (length (streams c)) /\
       (256 <= length (streams c))%nat) /\
      (length (streams c') = length (streams c) \/
       length (streams c') = S (length (streams c)) /\
       ((256 <= length (streams c))%nat -> In Too_many_streams (log c')))
  end.
Proof.
  unfold stream_turn.
  destruct (pb c) as [|b s] eqn:Hpb.
  { cbn. repeat split; auto. }
  rewrite avio_r8_cons. pose proof (byte_val_range b) as Rb.
  unfold STREAM_NONE, STREAM_AUDIO, STREAM_VIDEO.
  destruct (Z.eqb_spec (byte_val b) 0) as [H0|H0].
  { cbn. repeat split; auto. }
  destruct (Z.gtb_spec (byte_val b) 2) as [H2|H2].
  { split; [discriminate|]. cbn. split; [|auto]. intros H. apply in_app_or in H.
    destruct H as [H|[H|[]]]; [auto|discriminate]. }
  unfold avformat_new_stream. cbn [streams set_pb pb log].
  destruct (stream_alloc_ok env (length (streams c))).
  2:{ split; [discriminate|]. cbn. auto. }
  set (st0 := mkStream (Z.of_nat (length (streams c))) default_codecpar
                       (mkRational 0 1) 0).
  cbn [index]. fold st0.
  destruct (Z.gtb_spec (index st0) 255) as [Hi|Hi]; cbn [index st0] in Hi.
  { split; [discriminate|]. cbn. rewrite length_app. cbn. split.
    - intros _. right. split; [reflexivity|]. split; lia.
    - right. split; [lia|]. intros _. apply in_or_app. right. left. reflexivity. }
  set (c1 := mkCtx s (streams c ++ [st0]) (log c)).
  assert (Hrl : removelast (streams c1) = streams c)
    by (cbn; apply removelast_last).
  assert (Hne : streams c1 <> [])
    by (cbn; intros E; destruct (streams c); discriminate).
  assert (Hl1 : length (streams c1) = S (length (streams c)))
    by (cbn; rewrite length_app; cbn; lia).
  assert (Hcase :
            forall t : turn,
              match t with
              | Continue c' =>
                  (length (pb c') <= length (pb c1))%nat /\ log c' = log c1 /\
                  exists st', streams c' = removelast (streams c1) ++ [st'] /\
                    index st' = index st0 /\
                    (codec_type (codecpar st') = AVMEDIA_TYPE_VIDEO /\ video_ok env st' \/
                     codec_type (codecpar st') = AVMEDIA_TYPE_AUDIO /\ audio_ok env st')
              | Done r c' =>
                  r <> Return 0 /\
                  (In Too_many_streams (log c') -> In Too_many_streams (log c1)) /\
                  (streams c1 <> [] -> length (streams c') = length (streams c1))
              end ->
              match t with
              | Continue c' =>
                  (length (pb c') < length (b :: s))%nat /\ log c' = log c /\
                  exists st, streams c' = streams c ++ [st] /\
                    index st = Z.of_nat (length (streams c)) /\
                    (length (streams c) <= 255)%nat /\
                    (codec_type (codecpar st) = AVMEDIA_TYPE_VIDEO /\ video_ok env st \/
                     codec_type (codecpar st) = AVMEDIA_TYPE_AUDIO /\ audio_ok env st)
              | Done r c' =>
                  (r = Return 0 -> streams c' = streams c /\ log c' = log c) /\
                  (In Too_many_streams (log c') ->
                   In Too_many_streams (log c) \/
                   r = Return AVERROR_INVALIDDATA /\
                   length (streams c') = S (length (streams c)) /\
                   (256 <= length (streams c))%nat) /\
                  (length (streams c') = length (streams c) \/
                   length (streams c') = S (length (streams c)) /\
                   ((256 <= length (streams c))%nat -> In Too_many_streams (log c')))
              end).
  { intros [r c'|c'].
    - intros (V1 & V2 & V3). split; [intros; contradiction|]. split; [auto|].
      right. rewrite (V3 Hne), Hl1. split; [reflexivity|lia].
    - intros (V1 & V2 & st' & V3 & V4 & V5).
      rewrite Hrl in V3. cbn in V1, V2.
      split; [cbn; lia|]. split; [exact V2|].
      exists st'. repeat split; auto; try lia. }
  destruct (Z.eqb_spec (byte_val b) 1) as [H1|H1].
  { apply Hcase. pose proof (video_stream_spec st0 c1) as V.
    destruct (video_stream env st0 c1) as [r c'|c']; [exact V|].
    destruct V as (V1 & V2 & st' & V3 & V4 & V5 & V6). eauto 10. }
  destruct (Z.eqb_spec (byte_val b) 2) as [H3|H3]; [|lia].
  apply Hcase. pose proof (audio_stream_spec st0 c1) as V.
  destruct (audio_stream env st0 c1) as [r c'|c']; [exact V|].
  destruct V as (V1 & V2 & st' & V3 & V4 & V5 & V6). eauto 10.
Qed.

(** ** The loop *)

Lemma read_streams_S (fuel : nat) (c : AVFormatContext) :
  read_streams env (S fuel) c =
  match stream_turn env c with
  | Done r c' => Some (r, c')
  | Continue c' => read_streams env fuel c'
  end.
Proof. reflexivity. Qed.

Lemma read_streams_fuel (fuel : nat) : forall c : AVFormatContext,
  (length (pb c) < fuel)%nat -> exists r, read_streams env fuel c = Some r.
Proof.
  induction fuel as [|fuel IH]; intros c Hlen; [lia|].
  cbn [read_streams]. pose proof (stream_turn_spec c) as T.
  destruct (stream_turn env c) as [r c'|c'].
  - eexists; reflexivity.
  - apply IH. lia.
Qed.

Lemma read_streams_more_fuel (fuel : nat) : forall (c : AVFormatContext) r,
  read_streams env fuel c = Some r ->
  forall fuel', (fuel <= fuel')%nat -> read_streams env fuel' c = Some r.
Proof.
  induction fuel as [|fuel IH]; intros c r H fuel' Hle; [discriminate|].
  destruct fuel' as [|fuel']; [lia|].
  cbn [read_streams] in *.
  destruct (stream_turn env c) as [r0 c0|c0]; [exact H|].
  apply IH with (fuel' := fuel') in H; [exact H|lia].
Qed.

Lemma read_streams_any_fuel (f1 f2 : nat) (c : AVFormatContext) :
  (length (pb c) < f1)%nat -> (length (pb c) < f2)%nat ->
  read_streams env f1 c = read_streams env f2 c.
Proof.
  intros H1 H2.
  destruct (read_streams_fuel f1 c H1) as [r1 E1].
  destruct (Nat.le_ge_cases f1 f2) as [L|L].
  - rewrite E1. symmetry. eapply read_streams_more_fuel; eassumption.
  - destruct (read_streams_fuel f2 c H2) as [r2 E2].
    rewrite E2. eapply read_streams_more_fuel; eassumption.
Qed.

(** The header reader always comes to an end. *)
Lemma rawmux_read_header_total (avctx : AVFormatContext) :
  exists r, rawmux_read_header env avctx = Some r.
Proof.
  unfold rawmux_read_header.
  destruct (avio_r8 (avio_skip (pb avctx) sizeof_HEADER)) as [version s].
  destruct (negb (version =? 1)); [eexists; reflexivity|].
  apply read_streams_fuel. cbn. lia.
Qed.

(** What the loop keeps true from turn to turn. *)
Lemma read_streams_catalog (fuel : nat) : forall (c c' : AVFormatContext) r,
  read_streams env fuel c = Some (r, c') ->
  (r = Return 0 ->
   log c' = log c /\
   exists new, streams c' = streams c ++ new /\
     Forall (fun st =>
               codec_type (codecpar st) = AVMEDIA_TYPE_VIDEO /\ video_ok env st \/
               codec_type (codecpar st) = AVMEDIA_TYPE_AUDIO /\ audio_ok env st)
            new) /\
  ((length (streams c) <= 256)%nat ->
   (length (streams c') <= 257)%nat /\
   (length (streams c') = 257%nat -> In Too_many_streams (log c')) /\
   (In Too_many_streams (log c') -> ~ In Too_many_streams (log c) ->
    r = Return AVERROR_INVALIDDATA /\ length (streams c') = 257%nat)).
Proof.
  induction fuel as [|fuel IH]; intros c c' r H; [discriminate|].
  cbn [read_streams] in H. pose proof (stream_turn_spec c) as T.
  destruct (stream_turn env c) as [r0 c0|c0].
  - inversion H; subst r0 c0. destruct T as (T1 & T2 & T3). split.
    + intros Hr. destruct (T1 Hr) as [Ts Tl]. split; [exact Tl|].
      exists []. rewrite app_nil_r. split; [exact Ts|constructor].
    + intros Hlen. split; [|split].
      * destruct T3 as [E|[E _]]; lia.
      * intros H257. destruct T3 as [E|[E Hin]]; [lia|]. apply Hin. lia.
      * intros Hin Hnot. destruct (T2 Hin) as [Hold|(Hr & Hs & Hge)];
          [contradiction|].
        split; [exact Hr|lia].
  - destruct T as (Tp & Tl & st & Ts & Ti & Tn & Tok).
    destruct (IH _ _ _ H) as [I1 I2]. split.
    + intros Hr. destruct (I1 Hr) as (Il & new & Is & If). split; [congruence|].
      exists (st :: new). rewrite Is, Ts, <- app_assoc. split; [reflexivity|].
      constructor; assumption.
    + intros Hlen.
      assert (Hlen' : (length (streams c0) <= 256)%nat)
        by (rewrite Ts, length_app; cbn; lia).
      destruct (I2 Hlen') as (J1 & J2 & J3).
      split; [exact J1|]. split; [exact J2|].
      intros Hin Hnot. apply J3; [exact Hin|congruence].
Qed.

End HeaderFacts.

(** ** Rounding *)

Lemma round_div_nearest (p c : Z) :
  c <> 0 -> 2 * Z.abs (round_div p c * c - p) <= Z.abs c.
Proof.
  intros Hc. unfold round_div.
  set (q := (2 * Z.abs p + Z.abs c) / (2 * Z.abs c)).
  assert (Hac : 0 < Z.abs c) by lia.
  assert (Hq : 2 * Z.abs c * q <= 2 * Z.abs p + Z.abs c < 2 * Z.abs c * (q + 1)).
  { unfold q. split.
    - apply Z.mul_div_le. lia.
    - rewrite Z.mul_add_distr_l, Z.mul_1_r.
      pose proof (Z.mod_pos_bound (2 * Z.abs p + Z.abs c) (2 * Z.abs c)) as M.
      pose proof (Z.div_mod (2 * Z.abs p + Z.abs c) (2 * Z.abs c)) as D.
      lia. }
  assert (E1 : Z.sgn c * c = Z.abs c) by (rewrite Z.mul_comm; apply Z.sgn_abs).
  assert (E2 : Z.sgn p * Z.abs p = p) by (rewrite Z.mul_comm; apply Z.abs_sgn).
  replace (Z.sgn p * Z.sgn c * q * c - p)
    with (Z.sgn p * (q * Z.abs c - Z.abs p)).
  2:{ transitivity (Z.sgn p * q * (Z.sgn c * c) - Z.sgn p * Z.abs p);
      [rewrite E1; ring|rewrite E2; ring]. }
  rewrite Z.abs_mul.
  destruct (Z.eq_dec p 0) as [->|Hp].
  - cbn. lia.
  - replace (Z.abs (Z.sgn p)) with 1 by (destruct p; cbn; congruence).
    lia.
Qed.

Lemma encode_video_app (name nb db wb hb rest : list byte) :
  encode (VideoDesc name nb db wb hb) ++ rest =
  x01 :: name ++ x00 :: nb ++ db ++ wb ++ hb ++ rest.
Proof.
  cbn [encode]. rewrite <- app_comm_cons. f_equal.
  rewrite <- app_assoc, <- app_comm_cons. do 2 f_equal.
  rewrite <- !app_assoc. reflexivity.
Qed.

Lemma encode_audio_app (name rate : list byte) (ch : byte) (rest : list byte) :
  encode (AudioDesc name rate ch) ++ rest =
  x02 :: name ++ x00 :: rate ++ ch :: rest.
Proof.
  cbn [encode]. rewrite <- app_comm_cons. f_equal.
  rewrite <- app_assoc, <- app_comm_cons. do 2 f_equal.
  rewrite <- app_assoc. reflexivity.
Qed.

(** ** Descriptors as they lie in the file *)

Section Table.
Variable env : Collaborators.

Lemma stream_turn_video (c : AVFormatContext)
      (name nb db wb hb rest : list byte) :
  pb c = encode (VideoDesc name nb db wb hb) ++ rest ->
  name_fits 31 name ->
  length nb = 4%nat -> length db = 4%nat ->
  length wb = 4%nat -> length hb = 4%nat ->
  av_get_pix_fmt env (string_of_list_byte name) <> AV_PIX_FMT_NONE ->
  0 <= av_image_get_buffer_size env
         (av_get_pix_fmt env (string_of_list_byte name))
         (cast_int32 (rl_value wb)) (cast_int32 (rl_value hb)) 1 ->
  stream_alloc_ok env (length (streams c)) = true ->
  (length (streams c) <= 255)%nat ->
  let fmt := av_get_pix_fmt env (string_of_list_byte name) in
  let w := cast_int32 (rl_value wb) in
  let h := cast_int32 (rl_value hb) in
  let tb := mkRational (cast_int32 (rl_value nb)) (cast_int32 (rl_value db)) in
  let frame := av_image_get_buffer_size env fmt w h 1 in
  let par := mkPar AVMEDIA_TYPE_VIDEO (AV_CODEC_ID_RAWVIDEO env) fmt w h 0 0 0 0 0 in
  let idx := Z.of_nat (length (streams c)) in
  stream_turn env c =
  match av_rescale_q frame (mkRational 8 1) tb with
  | None =>
      Done Undefined
           (mkCtx rest (streams c ++ [mkStream idx par tb 64]) (log c))
  | Some r =>
      Continue
        (mkCtx rest
               (streams c ++ [mkStream idx (set_bit_rate r par) tb 64])
               (log c))
  end.
Proof.
  intros Hpb Hname Hn Hd Hw Hh Hfmt Hframe Halloc Hlen.
  unfold stream_turn. rewrite Hpb, encode_video_app.
  rewrite avio_r8_cons.
  change (byte_val x01 =? STREAM_NONE) with false.
  change (byte_val x01 >? STREAM_AUDIO) with false.
  change (byte_val x01 =? STREAM_VIDEO) with true.
  cbv iota. unfold avformat_new_stream. cbn [streams set_pb pb log].
  rewrite Halloc. cbn [index].
  destruct (Z.gtb_spec (Z.of_nat (length (streams c))) 255) as [Hi|Hi]; [lia|].
  unfold video_stream. cbn [pb].
  rewrite (avio_get_str_name 31) by assumption.
  cbn [format set_format].
  destruct (Z.eqb_spec (av_get_pix_fmt env (string_of_list_byte name))
                       AV_PIX_FMT_NONE) as [E|E]; [contradiction|].
  rewrite !avio_rl32_app by assumption.
  cbn -[av_rescale_q removelast app].
  unfold store_stream, avpriv_set_pts_info, set_codecpar.
  cbn -[av_rescale_q removelast app].
  rewrite !cast_int32_uint32, !cast_int32_idem, removelast_last.
  destruct (Z.ltb_spec
              (av_image_get_buffer_size env
                 (av_get_pix_fmt env (string_of_list_byte name))
                 (cast_int32 (rl_value wb)) (cast_int32 (rl_value hb)) 1) 0);
    [lia|].
  destruct (av_rescale_q _ _ _); reflexivity.
Qed.

Lemma stream_turn_audio (c : AVFormatContext)
      (name rate : list byte) (ch : byte) (rest : list byte) (codec : AVCodec) :
  pb c = encode (AudioDesc name rate ch) ++ rest ->
  name_fits 27 name ->
  length rate = 4%nat ->
  avcodec_find_decoder_by_name env
    (String.append "pcm_" (string_of_list_byte name)) = Some codec ->
  AVCodec_type codec = AVMEDIA_TYPE_AUDIO ->
  0 < av_get_bits_per_sample env (AVCodec_id codec) ->
  stream_alloc_ok env (length (streams c)) = true ->
  (length (streams c) <= 255)%nat ->
  let bits := av_get_bits_per_sample env (AVCodec_id codec) in
  let rt := cast_int32 (rl_value rate) in
  let par := mkPar AVMEDIA_TYPE_AUDIO (AVCodec_id codec) (- 1) 0 0 0
                   rt (byte_val ch) bits
                   (Z.quot (cast_int32 (bits * byte_val ch)) 8) in
  stream_turn env c =
  Continue
    (mkCtx rest
       (streams c ++
        [mkStream (Z.of_nat (length (streams c))) par (mkRational 1 rt) 64])
       (log c)).
Proof.
  intros Hpb Hname Hr Hfind Htype Hbits Halloc Hlen.
  unfold stream_turn. rewrite Hpb, encode_audio_app.
  rewrite avio_r8_cons.
  change (byte_val x02 =? STREAM_NONE) with false.
  change (byte_val x02 >? STREAM_AUDIO) with false.
  change (byte_val x02 =? STREAM_VIDEO) with false.
  change (byte_val x02 =? STREAM_AUDIO) with true.
  cbv iota. unfold avformat_new_stream. cbn [streams set_pb pb log].
  rewrite Halloc. cbn [index].
  destruct (Z.gtb_spec (Z.of_nat (length (streams c))) 255) as [Hi|Hi]; [lia|].
  unfold audio_stream. cbn [pb].
  change (32 - 4)%nat with 28%nat.
  rewrite (avio_get_str_name 27) by assumption.
  rewrite Hfind, Htype. cbn [AVMediaType_eqb negb].
  rewrite avio_rl32_app by assumption. rewrite avio_r8_cons.
  cbn -[removelast app].
  destruct (Z.gtb_spec (av_get_bits_per_sample env (AVCodec_id codec)) 0);
    [|lia].
  unfold store_stream, avpriv_set_pts_info, set_codecpar.
  cbn -[removelast app]. rewrite cast_int32_uint32, cast_int32_idem, removelast_last.
  reflexivity.
Qed.

Lemma stream_turn_too_many (c : AVFormatContext) (d : descriptor) (rest : list byte) :
  pb c = encode d ++ rest ->
  stream_alloc_ok env (length (streams c)) = true ->
  (256 <= length (streams c))%nat ->
  exists c', stream_turn env c = Done (Return AVERROR_INVALIDDATA) c' /\
             log c' = log c ++ [Too_many_streams] /\
             length (streams c') = S (length (streams c)).
Proof.
  intros Hpb Halloc Hlen. unfold stream_turn. rewrite Hpb.
  assert (T : exists t s, encode d ++ rest = t :: s /\ (t = x01 \/ t = x02)).
  { destruct d; cbn [encode app]; do 2 eexists; split; eauto. }
  destruct T as (t & s & -> & Ht). rewrite avio_r8_cons.
  assert (Hn : (byte_val t =? STREAM_NONE) = false)
    by (destruct Ht; subst; reflexivity).
  assert (Ha : (byte_val t >? STREAM_AUDIO) = false)
    by (destruct Ht; subst; reflexivity).
  rewrite Hn, Ha. unfold avformat_new_stream. cbn [streams set_pb pb log].
  rewrite Halloc. cbn [index].
  destruct (Z.gtb_spec (Z.of_nat (length (streams c))) 255) as [Hi|Hi]; [|lia].
  eexists. split; [reflexivity|]. cbn. rewrite length_app. cbn.
  split; [reflexivity|lia].
Qed.

Lemma stream_turn_acceptable (c : AVFormatContext) (d : descriptor) (rest : list byte) :
  acceptable env d ->
  pb c = encode d ++ rest ->
  stream_alloc_ok env (length (streams c)) = true ->
  (length (streams c) <= 255)%nat ->
  exists st, stream_turn env c =
             Continue (mkCtx rest (streams c ++ [st]) (log c)) /\
             index st = Z.of_nat (length (streams c)).
Proof.
  intros Hd Hpb Halloc Hlen. destruct d as [name nb db wb hb|name rate ch].
  - destruct Hd as (Hname & Hn & Hdn & Hw & Hh & Hfmt & Hframe & Hnum).
    rewrite (stream_turn_video c name nb db wb hb rest) by assumption.
    rewrite av_rescale_q_frame. cbn [num den].
    destruct (Z.eqb_spec (cast_int32 (rl_value nb)) 0); [contradiction|].
    eexists; split; reflexivity.
  - destruct Hd as (Hname & Hr & codec & Hfind & Htype & Hbits).
    rewrite (stream_turn_audio c name rate ch rest codec) by assumption.
    eexists; split; reflexivity.
Qed.

Lemma encode_nonempty (ds : list descriptor) :
  (length ds <= length (concat (map encode ds)))%nat.
Proof.
  induction ds as [|d ds IH]; [cbn; lia|].
  cbn [map concat length]. rewrite length_app.
  destruct d; cbn [encode length]; lia.
Qed.

(** A table of acceptable descriptors that ends in the terminator. *)
Lemma read_streams_table (ds : list descriptor) :
  forall (c : AVFormatContext) (rest : list byte) (fuel : nat),
  (forall i, (i <= 256)%nat -> stream_alloc_ok env i = true) ->
  Forall (acceptable env) ds ->
  pb c = concat (map encode ds) ++ x00 :: rest ->
  (length (streams c) + length ds <= 256)%nat ->
  (length ds < fuel)%nat ->
  exists new,
    read_streams env fuel c = Some (Return 0, mkCtx rest (streams c ++ new) (log c)) /\
    length new = length ds /\
    forall i st, nth_error new i = Some st ->
                 index st = Z.of_nat (length (streams c) + i).
Proof.
  induction ds as [|d ds IH]; intros c rest fuel Halloc Hds Hpb Hlen Hfuel.
  - destruct fuel as [|fuel]; [cbn in Hfuel; lia|].
    cbn [map concat app] in Hpb. cbn [read_streams]. unfold stream_turn.
    rewrite Hpb, avio_r8_cons.
    change (byte_val x00 =? STREAM_NONE) with true. cbv iota.
    exists []. rewrite app_nil_r. split; [reflexivity|]. split; [reflexivity|].
    intros [|i] st H; discriminate.
  - destruct fuel as [|fuel]; [cbn in Hfuel; lia|].
    inversion Hds as [|? ? Hd Hds']; subst.
    cbn [map concat] in Hpb. rewrite <- app_assoc in Hpb.
    cbn [length] in Hlen, Hfuel.
    destruct (stream_turn_acceptable c d _ Hd Hpb) as (st & Hst & Hidx);
      [apply Halloc; lia|lia|].
    cbn [read_streams]. rewrite Hst.
    destruct (IH (mkCtx (concat (map encode ds) ++ x00 :: rest)
                        (streams c ++ [st]) (log c)) rest fuel)
      as (new & Hrun & Hnew & Hpos); try assumption.
    + reflexivity.
    + cbn [streams]. rewrite length_app. cbn. lia.
    + lia.
    + exists (st :: new). cbn [streams log] in Hrun, Hpos.
      rewrite <- app_assoc in Hrun. split; [exact Hrun|].
      split; [cbn; lia|].
      intros [|i] st' H; cbn [nth_error] in H.
      * inversion H; subst st'. rewrite Hidx. f_equal. lia.
      * rewrite (Hpos i st' H), length_app. cbn [length]. f_equal. lia.
Qed.

(** A table that declares more descriptors than the catalog may hold. *)
Lemma read_streams_table_too_long (ds : list descriptor) :
  forall (c : AVFormatContext) (rest : list byte) (fuel : nat),
  (forall i, (i <= 256)%nat -> stream_alloc_ok env i = true) ->
  Forall (acceptable env) ds ->
  pb c = concat (map encode ds) ++ rest ->
  (length (streams c) <= 256)%nat ->
  (256 < length (streams c) + length ds)%nat ->
  (length ds <= fuel)%nat ->
  exists c',
    read_streams env fuel c = Some (Return AVERROR_INVALIDDATA, c') /\
    log c' = log c ++ [Too_many_streams] /\
    length (streams c') = 257%nat.
Proof.
  induction ds as [|d ds IH]; intros c rest fuel Halloc Hds Hpb Hle Hgt Hfuel.
  - cbn in Hgt. lia.
  - destruct fuel as [|fuel]; [cbn in Hfuel; lia|].
    inversion Hds as [|? ? Hd Hds']; subst.
    cbn [map concat] in Hpb. rewrite <- app_assoc in Hpb.
    cbn [length] in Hgt, Hfuel. cbn [read_streams].
    destruct (Nat.eq_dec (length (streams c)) 256) as [E|E].
    + destruct (stream_turn_too_many c d _ Hpb) as (c' & Ht & Hl & Hs);
        [apply Halloc; lia|lia|].
      rewrite Ht. exists c'. split; [reflexivity|]. split; [exact Hl|lia].
    + destruct (stream_turn_acceptable c d _ Hd Hpb) as (st & Hst & _);
        [apply Halloc; lia|lia|].
      rewrite Hst.
      destruct (IH (mkCtx (concat (map encode ds) ++ rest)
                          (streams c ++ [st]) (log c)) rest fuel)
        as (c' & Hrun & Hl & Hs); try assumption.
      * reflexivity.
      * cbn [streams]. rewrite length_app. cbn. lia.
      * cbn [streams]. rewrite length_app. cbn. lia.
      * lia.
      * exists c'. auto.
Qed.
End Table.

(** ** The header reader *)

Section HeaderClaims.
Variable env : Collaborators.

Lemma rawmux_read_header_start (avctx : AVFormatContext)
      (magic : list byte) (v : byte) (rest : list byte) :
  length magic = 6%nat ->
  pb avctx = magic ++ v :: rest ->
  rawmux_read_header env avctx =
  if negb (byte_val v =? 1) then
    Some (Return AVERROR_INVALIDDATA,
          av_log (Invalid_version (byte_val v)) (set_pb rest avctx))
  else read_streams env (S (length rest)) (set_pb rest avctx).
Proof.
  intros Hm Hpb. unfold rawmux_read_header. rewrite Hpb.
  unfold avio_skip. change sizeof_HEADER with 6%nat. rewrite <- Hm.
  rewrite skipn_length_app, avio_r8_cons. reflexivity.
Qed.

Lemma rawmux_read_header_catalog (avctx c' : AVFormatContext) :
  rawmux_read_header env avctx = Some (Return 0, c') ->
  log c' = log avctx /\
  exists new, streams c' = streams avctx ++ new /\
    Forall (fun st =>
              codec_type (codecpar st) = AVMEDIA_TYPE_VIDEO /\ video_ok env st \/
              codec_type (codecpar st) = AVMEDIA_TYPE_AUDIO /\ audio_ok env st)
           new.
Proof.
  unfold rawmux_read_header.
  destruct (avio_r8 (avio_skip (pb avctx) sizeof_HEADER)) as [version s].
  destruct (negb (version =? 1)); [discriminate|].
  intros H. apply read_streams_catalog in H. destruct H as [H _].
  exact (H eq_refl).
Qed.

End HeaderClaims.

(** C6.  When the byte after the 6 bytes of the magic is not 1, the header
    reader fails with [AVERROR_INVALIDDATA] and the message for an invalid
    version, whatever bytes follow; the catalog is left as it was. *)
Theorem rawmux_read_header_version
        (env : Collaborators) (avctx : AVFormatContext)
        (magic : list byte) (v : byte) (rest : list byte) :
  length magic = 6%nat ->
  pb avctx = magic ++ v :: rest ->
  byte_val v <> 1 ->
  rawmux_read_header env avctx =
  Some (Return AVERROR_INVALIDDATA,
        mkCtx rest (streams avctx)
              (log avctx ++ [Invalid_version (byte_val v)])).
Proof.
  intros Hm Hpb Hv. rewrite (rawmux_read_header_start env _ _ _ _ Hm Hpb).
  destruct (Z.eqb_spec (byte_val v) 1); [contradiction|]. reflexivity.
Qed.

Lemma rawmux_read_header_version_witness :
  rawmux_read_header demo_env
    (mkCtx (HEADER ++ x02 :: encode demo_video ++ [x00]) [] []) =
  Some (Return AVERROR_INVALIDDATA,
        mkCtx (encode demo_video ++ [x00]) [] [Invalid_version 2]).
Proof.
  apply (rawmux_read_header_version demo_env
           (mkCtx (HEADER ++ x02 :: encode demo_video ++ [x00]) [] [])
           HEADER x02 (encode demo_video ++ [x00])).
  - reflexivity.
  - reflexivity.
  - vm_compute. congruence.
Defined.

(** C7.  In any turn of the loop the type byte is first compared with the
    terminator: a type byte 0 ends the loop with success whatever bytes
    follow, and a type byte above 2 fails with [AVERROR_INVALIDDATA] and
    the message for an invalid stream type; in both cases no stream has
    been allocated. *)
Theorem read_streams_terminator_first
        (env : Collaborators) (c : AVFormatContext)
        (t : byte) (rest : list byte) (fuel : nat) :
  pb c = t :: rest ->
  (byte_val t = 0 ->
   stream_turn env c = Done (Return 0) (mkCtx rest (streams c) (log c)) /\
   read_streams env (S fuel) c =
   Some (Return 0, mkCtx rest (streams c) (log c))) /\
  (2 < byte_val t ->
   stream_turn env c =
   Done (Return AVERROR_INVALIDDATA)
        (mkCtx rest (streams c) (log c ++ [Invalid_stream_type (byte_val t)])) /\
   read_streams env (S fuel) c =
   Some (Return AVERROR_INVALIDDATA,
         mkCtx rest (streams c) (log c ++ [Invalid_stream_type (byte_val t)]))).
Proof.
  intros Hpb. cbn [read_streams]. unfold stream_turn.
  rewrite Hpb, avio_r8_cons. unfold STREAM_NONE, STREAM_AUDIO. split.
  - intros H0. rewrite H0. cbn. split; reflexivity.
  - intros H2. destruct (Z.eqb_spec (byte_val t) 0); [lia|].
    destruct (Z.gtb_spec (byte_val t) 2); [|lia]. split; reflexivity.
Qed.

Lemma read_streams_terminator_first_witness :
  read_streams demo_env 1 (mkCtx (x00 :: encode demo_video) [] []) =
  Some (Return 0, mkCtx (encode demo_video) [] []) /\
  read_streams demo_env 1 (mkCtx (x03 :: encode demo_video) [] []) =
  Some (Return AVERROR_INVALIDDATA,
        mkCtx (encode demo_video) [] [Invalid_stream_type 3]).
Proof.
  split.
  - apply (proj1 (read_streams_terminator_first demo_env
                    (mkCtx (x00 :: encode demo_video) [] [])
                    x00 (encode demo_video) 0 eq_refl)).
    reflexivity.
  - apply (proj2 (read_streams_terminator_first demo_env
                    (mkCtx (x03 :: encode demo_video) [] [])
                    x03 (encode demo_video) 0 eq_refl)).
    vm_compute. reflexivity.
Defined.

(** C2.  The message for too many streams is given exactly when the 257th
    descriptor has been allocated: on a fresh context it is logged if and
    only if the catalog ends with 257 streams, the call has then failed,
    and the catalog never grows further; a table of 256 acceptable
    descriptors followed by the terminator is read with success; a table of
    more than 256 fails at the 257th. *)
Theorem rawmux_read_header_stream_limit (env : Collaborators) :
  (forall (avctx c' : AVFormatContext) (r : outcome),
      streams avctx = [] ->
      ~ In Too_many_streams (log avctx) ->
      rawmux_read_header env avctx = Some (r, c') ->
      (In Too_many_streams (log c') <-> length (streams c') = 257%nat) /\
      (In Too_many_streams (log c') -> r = Return AVERROR_INVALIDDATA) /\
      (length (streams c') <= 257)%nat) /\
  (forall (avctx : AVFormatContext) (magic : list byte)
          (ds : list descriptor) (rest : list byte),
      (forall i, (i <= 256)%nat -> stream_alloc_ok env i = true) ->
      streams avctx = [] ->
      length magic = 6%nat ->
      Forall (acceptable env) ds ->
      ((length ds <= 256)%nat ->
       pb avctx = magic ++ x01 :: concat (map encode ds) ++ x00 :: rest ->
       exists new,
         rawmux_read_header env avctx =
         Some (Return 0, mkCtx rest new (log avctx)) /\
         length new = length ds /\
         forall i st, nth_error new i = Some st -> index st = Z.of_nat i) /\
      ((256 < length ds)%nat ->
       pb avctx = magic ++ x01 :: concat (map encode ds) ++ rest ->
       exists c',
         rawmux_read_header env avctx =
         Some (Return AVERROR_INVALIDDATA, c') /\
         log c' = log avctx ++ [Too_many_streams] /\
         length (streams c') = 257%nat)).
Proof.
  split.
  - intros avctx c' r Hs Hlog Hrun.
    unfold rawmux_read_header in Hrun.
    destruct (avio_r8 (avio_skip (pb avctx) sizeof_HEADER)) as [version s].
    destruct (negb (version =? 1)).
    + inversion Hrun; subst. cbn [streams log av_log set_pb]. rewrite Hs.
      assert (Hno : ~ In Too_many_streams (log avctx ++ [Invalid_version version])).
      { intros Hin. apply in_app_or in Hin.
        destruct Hin as [Hin|[Hin|[]]]; [contradiction|discriminate]. }
      split; [split; [contradiction|cbn; lia]|].
      split; [contradiction|cbn; lia].
    + apply read_streams_catalog in Hrun. destruct Hrun as [_ Hrun].
      cbn [streams log set_pb] in Hrun. rewrite Hs in Hrun.
      destruct Hrun as (H1 & H2 & H3); [cbn; lia|].
      split; [split; [intros Hin; apply H3; assumption|exact H2]|].
      split; [intros Hin; apply H3; assumption|exact H1].
  - intros avctx magic ds rest Halloc Hs Hm Hds. split.
    + intros Hlen Hpb.
      rewrite (rawmux_read_header_start env _ _ _ _ Hm Hpb).
      change (negb (byte_val x01 =? 1)) with false. cbv iota.
      destruct (read_streams_table env ds
                  (set_pb (concat (map encode ds) ++ x00 :: rest) avctx) rest
                  (S (length (concat (map encode ds) ++ x00 :: rest))))
        as (new & Hrun & Hnew & Hpos); try assumption.
      * reflexivity.
      * cbn [streams set_pb]. rewrite Hs. cbn. lia.
      * pose proof (encode_nonempty ds). rewrite length_app. lia.
      * exists new. cbn [streams log set_pb] in Hrun, Hpos.
        rewrite Hs in Hrun, Hpos. split; [exact Hrun|]. split; [exact Hnew|].
        exact Hpos.
    + intros Hlen Hpb.
      rewrite (rawmux_read_header_start env _ _ _ _ Hm Hpb).
      change (negb (byte_val x01 =? 1)) with false. cbv iota.
      destruct (read_streams_table_too_long env ds
                  (set_pb (concat (map encode ds) ++ rest) avctx) rest
                  (S (length (concat (map encode ds) ++ rest))))
        as (c' & Hrun & Hl & Hn); try assumption.
      * reflexivity.
      * cbn [streams set_pb]. rewrite Hs. cbn. lia.
      * cbn [streams set_pb]. rewrite Hs. cbn. lia.
      * pose proof (encode_nonempty ds). rewrite length_app. lia.
      * exists c'. auto.
Qed.

Lemma demo_audio_acceptable : acceptable demo_env demo_audio.
Proof.
  cbn. split; [split; [repeat constructor; discriminate|cbn; lia]|].
  split; [reflexivity|].
  exists (mkCodec 65536 AVMEDIA_TYPE_AUDIO). repeat split.
Qed.

Lemma rawmux_read_header_stream_limit_witness :
  (exists new,
      rawmux_read_header demo_env
        (mkCtx (HEADER ++ x01 :: concat (map encode (repeat demo_audio 256))
                  ++ x00 :: [xff]) [] []) =
      Some (Return 0, mkCtx [xff] new []) /\
      length new = 256%nat /\
      forall i st, nth_error new i = Some st -> index st = Z.of_nat i) /\
  (exists c',
      rawmux_read_header demo_env
        (mkCtx (HEADER ++ x01 :: concat (map encode (repeat demo_audio 257))
                  ++ x00 :: [xff]) [] []) =
      Some (Return AVERROR_INVALIDDATA, c') /\
      log c' = [Too_many_streams] /\
      length (streams c') = 257%nat) /\
  (length (@nil AVStream) <= 257)%nat.
Proof.
  split; [|split].
  - destruct (proj2 (rawmux_read_header_stream_limit demo_env)
                (mkCtx (HEADER ++ x01 :: concat (map encode (repeat demo_audio 256))
                          ++ x00 :: [xff]) [] [])
                HEADER (repeat demo_audio 256) [xff]
                (fun _ _ => eq_refl) eq_refl eq_refl
                (proj2 (Forall_forall _ _)
                       (fun d Hd => eq_ind_r _ demo_audio_acceptable
                                             (repeat_spec _ _ _ Hd))))
      as [H _].
    destruct H as (new & Hrun & Hlen & Hidx).
    + rewrite repeat_length. lia.
    + reflexivity.
    + exists new. rewrite repeat_length in Hlen. auto.
  - destruct (proj2 (rawmux_read_header_stream_limit demo_env)
                (mkCtx (HEADER ++ x01 :: concat (map encode (repeat demo_audio 257))
                          ++ x00 :: [xff]) [] [])
                HEADER (repeat demo_audio 257) (x00 :: [xff])
                (fun _ _ => eq_refl) eq_refl eq_refl
                (proj2 (Forall_forall _ _)
                       (fun d Hd => eq_ind_r _ demo_audio_acceptable
                                             (repeat_spec _ _ _ Hd))))
      as [_ H].
    destruct H as (c' & Hrun & Hlog & Hlen).
    + rewrite repeat_length. lia.
    + reflexivity.
    + exists c'. auto.
  - apply (proj1 (rawmux_read_header_stream_limit demo_env)
                 (mkCtx (HEADER ++ [x01; x00]) [] []) (mkCtx [] [] [])
                 (Return 0) eq_refl (fun H => H) eq_refl).
Defined.

(** C3.  After a successful header read, every video stream added to the
    catalog has as bit rate the nearest integer to
    [frame * 8 * time_base.den / time_base.num], where [frame] is the
    buffer size the collaborator gives for the stream's pixel format, width
    and height without padding.  With the time base 1/30, 2 x 2 pixels and
    a format of 4 bytes per pixel, the frame has 16 bytes and the bit rate
    is 3840. *)
Theorem rawmux_read_header_bit_rate
        (env : Collaborators) (avctx c' : AVFormatContext) :
  rawmux_read_header env avctx = Some (Return 0, c') ->
  exists new,
    streams c' = streams avctx ++ new /\
    Forall
      (fun st =>
         codec_type (codecpar st) = AVMEDIA_TYPE_VIDEO ->
         let par := codecpar st in
         let tb := time_base st in
         let frame :=
           av_image_get_buffer_size env (format par) (width par) (height par) 1 in
         0 <= frame /\
         num tb <> 0 /\
         bit_rate par = round_div (frame * 8 * den tb) (num tb) /\
         2 * Z.abs (bit_rate par * num tb - frame * 8 * den tb) <= Z.abs (num tb) /\
         (tb = mkRational 1 30 -> width par = 2 -> height par = 2 ->
          av_image_get_buffer_size env (format par) 2 2 1 = 4 * 2 * 2 ->
          frame = 16 /\ bit_rate par = 3840))
      new.
Proof.
  intros H. apply rawmux_read_header_catalog in H.
  destruct H as (_ & new & Hs & Hall). exists new. split; [exact Hs|].
  eapply Forall_impl; [|exact Hall]. cbv beta.
  intros st Hst Hv. destruct Hst as [[_ Hok]|[Ha _]]; [|congruence].
  destruct Hok as (Hf & Hn & Hb). cbv zeta.
  split; [exact Hf|]. split; [exact Hn|]. split; [exact Hb|]. split.
  - rewrite Hb. apply round_div_nearest. exact Hn.
  - intros Htb Hw Hh H16. rewrite Hb, Htb, Hw, Hh, H16. cbn [num den].
    split; reflexivity.
Qed.

Lemma rawmux_read_header_bit_rate_witness :
  exists new,
    [mkStream 0 (mkPar AVMEDIA_TYPE_VIDEO 13 26 2 2 3840 0 0 0 0)
              (mkRational 1 30) 64] = [] ++ new /\
    Forall
      (fun st =>
         codec_type (codecpar st) = AVMEDIA_TYPE_VIDEO ->
         let par := codecpar st in
         let tb := time_base st in
         let frame :=
           av_image_get_buffer_size demo_env (format par) (width par) (height par) 1 in
         0 <= frame /\
         num tb <> 0 /\
         bit_rate par = round_div (frame * 8 * den tb) (num tb) /\
         2 * Z.abs (bit_rate par * num tb - frame * 8 * den tb) <= Z.abs (num tb) /\
         (tb = mkRational 1 30 -> width par = 2 -> height par = 2 ->
          av_image_get_buffer_size demo_env (format par) 2 2 1 = 4 * 2 * 2 ->
          frame = 16 /\ bit_rate par = 3840))
      new.
Proof.
  apply (rawmux_read_header_bit_rate demo_env
           (mkCtx (HEADER ++ x01 :: encode demo_video ++ [x00]) [] [])
           (mkCtx []
                  [mkStream 0 (mkPar AVMEDIA_TYPE_VIDEO 13 26 2 2 3840 0 0 0 0)
                            (mkRational 1 30) 64] [])).
  vm_compute. reflexivity.
Defined.

(** C4.  After a successful header read, every audio stream added to the
    catalog has as block size the quotient by 8, truncated, of the product
    [bits_per_coded_sample * channels] that the code forms in [int], and as
    time base [1 / sample_rate].  When the bit depths of the registry are
    such that the product with 255 channels stays within [INT_MAX], that is
    the quotient of the product itself; 16 bits per sample and 2 channels
    give 4. *)
Theorem rawmux_read_header_block_align
        (env : Collaborators) (avctx c' : AVFormatContext) :
  (forall id, av_get_bits_per_sample env id * 255 <= INT_MAX) ->
  rawmux_read_header env avctx = Some (Return 0, c') ->
  exists new,
    streams c' = streams avctx ++ new /\
    Forall
      (fun st =>
         codec_type (codecpar st) = AVMEDIA_TYPE_AUDIO ->
         let par := codecpar st in
         let bits := bits_per_coded_sample par in
         bits = av_get_bits_per_sample env (codec_id par) /\
         0 < bits /\
         block_align par = Z.quot (cast_int32 (bits * channels par)) 8 /\
         block_align par = Z.quot (bits * channels par) 8 /\
         8 * block_align par <= bits * channels par < 8 * block_align par + 8 /\
         time_base st = mkRational 1 (sample_rate par) /\
         (bits = 16 -> channels par = 2 -> block_align par = 4))
      new.
Proof.
  intros Hbound H. apply rawmux_read_header_catalog in H.
  destruct H as (_ & new & Hs & Hall). exists new. split; [exact Hs|].
  eapply Forall_impl; [|exact Hall]. cbv beta.
  intros st Hst Ha. destruct Hst as [[Hv _]|[_ Hok]]; [congruence|].
  destruct Hok as (Hb & Hpos & Hch & Hblk & Htb). cbv zeta.
  set (bits := bits_per_coded_sample (codecpar st)) in *.
  set (ch := channels (codecpar st)) in *.
  assert (Hfit : 0 <= bits * ch <= INT_MAX).
  { pose proof (Hbound (codec_id (codecpar st))) as B. rewrite <- Hb in B.
    split; nia. }
  assert (Hcast : cast_int32 (bits * ch) = bits * ch)
    by (apply cast_int32_small; unfold INT_MAX in Hfit; lia).
  assert (Hq : block_align (codecpar st) = Z.quot (bits * ch) 8)
    by (rewrite Hblk, Hcast; reflexivity).
  split; [exact Hb|]. split; [exact Hpos|]. split; [exact Hblk|].
  split; [exact Hq|]. split; [|split; [exact Htb|]].
  - rewrite Hq. rewrite Z.quot_div_nonneg by lia.
    pose proof (Z.div_mod (bits * ch) 8).
    pose proof (Z.mod_pos_bound (bits * ch) 8).
    lia.
  - intros H16 H2. rewrite Hq, H16, H2. reflexivity.
Qed.

Lemma rawmux_read_header_block_align_witness :
  exists new,
    [mkStream 0 (mkPar AVMEDIA_TYPE_AUDIO 65536 (- 1) 0 0 0 44100 2 16 4)
              (mkRational 1 44100) 64] = [] ++ new /\
    Forall
      (fun st =>
         codec_type (codecpar st) = AVMEDIA_TYPE_AUDIO ->
         let par := codecpar st in
         let bits := bits_per_coded_sample par in
         bits = av_get_bits_per_sample demo_env (codec_id par) /\
         0 < bits /\
         block_align par = Z.quot (cast_int32 (bits * channels par)) 8 /\
         block_align par = Z.quot (bits * channels par) 8 /\
         8 * block_align par <= bits * channels par < 8 * block_align par + 8 /\
         time_base st = mkRational 1 (sample_rate par) /\
         (bits = 16 -> channels par = 2 -> block_align par = 4))
      new.
Proof.
  apply (rawmux_read_header_block_align demo_env
           (mkCtx (HEADER ++ x01 :: encode demo_audio ++ [x00]) [] [])
           (mkCtx []
                  [mkStream 0 (mkPar AVMEDIA_TYPE_AUDIO 65536 (- 1) 0 0 0 44100 2 16 4)
                            (mkRational 1 44100) 64] [])).
  - intros id. cbn. destruct (id =? 65536); vm_compute; congruence.
  - vm_compute. reflexivity.
Defined.

(** C10.  The header reader hands the time base it has read to the
    rescaling of the frame size without looking at it.  The quotient exists
    exactly when the numerator is not zero: a video descriptor with the
    numerator 0 makes the call end in the undefined quotient instead of an
    error return, and a descriptor with any other numerator, also with the
    denominator 0, is taken with the rescaled value as bit rate. *)
Theorem rawmux_read_header_time_base_unchecked
        (env : Collaborators) (avctx : AVFormatContext)
        (magic name nb db wb hb rest : list byte) :
  length magic = 6%nat ->
  pb avctx = magic ++ x01 :: encode (VideoDesc name nb db wb hb) ++ rest ->
  name_fits 31 name ->
  length nb = 4%nat -> length db = 4%nat ->
  length wb = 4%nat -> length hb = 4%nat ->
  av_get_pix_fmt env (string_of_list_byte name) <> AV_PIX_FMT_NONE ->
  0 <= av_image_get_buffer_size env
         (av_get_pix_fmt env (string_of_list_byte name))
         (cast_int32 (rl_value wb)) (cast_int32 (rl_value hb)) 1 ->
  stream_alloc_ok env (length (streams avctx)) = true ->
  (length (streams avctx) <= 255)%nat ->
  let tb := mkRational (cast_int32 (rl_value nb)) (cast_int32 (rl_value db)) in
  let frame :=
    av_image_get_buffer_size env
      (av_get_pix_fmt env (string_of_list_byte name))
      (cast_int32 (rl_value wb)) (cast_int32 (rl_value hb)) 1 in
  (av_rescale_q frame (mkRational 8 1) tb = None <-> num tb = 0) /\
  (num tb = 0 ->
   exists st,
     rawmux_read_header env avctx =
     Some (Undefined, mkCtx rest (streams avctx ++ [st]) (log avctx)) /\
     time_base st = tb) /\
  (num tb <> 0 ->
   exists st,
     rawmux_read_header env avctx =
     read_streams env (S (length rest))
                  (mkCtx rest (streams avctx ++ [st]) (log avctx)) /\
     time_base st = tb /\
     bit_rate (codecpar st) = round_div (frame * 8 * den tb) (num tb)).
Proof.
  intros Hm Hpb Hname Hn Hd Hw Hh Hfmt Hframe Halloc Hlen tb frame.
  assert (Hq : av_rescale_q frame (mkRational 8 1) tb = None <-> num tb = 0).
  { rewrite av_rescale_q_frame.
    destruct (Z.eqb_spec (num tb) 0); split; congruence. }
  split; [exact Hq|].
  rewrite (rawmux_read_header_start env _ _ _ _ Hm Hpb).
  change (negb (byte_val x01 =? 1)) with false. cbv iota.
  rewrite read_streams_S.
  rewrite (stream_turn_video env _ name nb db wb hb rest);
    try assumption; try reflexivity.
  fold tb frame. cbn [streams log set_pb].
  split.
  - intros Hz. apply Hq in Hz. rewrite Hz.
    eexists. split; reflexivity.
  - intros Hnz. rewrite av_rescale_q_frame.
    destruct (Z.eqb_spec (num tb) 0); [contradiction|].
    eexists. split.
    + apply read_streams_any_fuel; cbn [pb]; [|lia].
      rewrite length_app. cbn [encode length]. lia.
    + split; reflexivity.
Qed.

Lemma rawmux_read_header_time_base_unchecked_witness :
  exists st,
    rawmux_read_header demo_env
      (mkCtx (HEADER ++ x01 :: encode demo_video_zero_num ++ [x00]) [] []) =
    Some (Undefined, mkCtx [x00] ([] ++ [st]) []) /\
    time_base st = mkRational 0 30.
Proof.
  assert (Hname : name_fits 31 [x72; x67; x62; x61])
    by (split; [repeat constructor; discriminate|cbn; lia]).
  destruct (rawmux_read_header_time_base_unchecked demo_env
              (mkCtx (HEADER ++ x01 :: encode demo_video_zero_num ++ [x00]) [] [])
              HEADER [x72; x67; x62; x61]
              [x00; x00; x00; x00] [x1e; x00; x00; x00]
              [x02; x00; x00; x00] [x02; x00; x00; x00] [x00]
              eq_refl eq_refl Hname eq_refl eq_refl eq_refl eq_refl)
    as (_ & Hz & _).
  - vm_compute. congruence.
  - vm_compute. congruence.
  - reflexivity.
  - cbn. lia.
  - apply Hz. reflexivity.
Defined.

(** * Further properties *)

(** ** Fields written from values *)

Lemma cast_int64_small (z : Z) : - 2 ^ 63 <= z < 2 ^ 63 -> cast_int64 z = z.
Proof. intros H. unfold cast_int64. rewrite Z.mod_small; lia. Qed.

Lemma cast_int64_mod (z : Z) : cast_int64 (z mod 2 ^ 64) = cast_int64 z.
Proof. unfold cast_int64. rewrite Zplus_mod_idemp_l. reflexivity. Qed.

Lemma cast_int32_mod (z : Z) : cast_int32 (z mod 2 ^ 32) = cast_int32 z.
Proof. exact (cast_int32_uint32 z). Qed.

Lemma byte_val_of_Z (z : Z) : byte_val (byte_of_Z z) = z mod 256.
Proof.
  unfold byte_of_Z, byte_val.
  pose proof (Z.mod_pos_bound z 256 ltac:(lia)) as R.
  destruct (Byte.of_N (Z.to_N (z mod 256))) as [b|] eqn:E.
  - apply Byte.to_of_N in E. rewrite E. apply Z2N.id. lia.
  - apply Byte.of_N_None_iff in E. lia.
Qed.

Lemma byte_of_Z_val (b : byte) : byte_of_Z (byte_val b) = b.
Proof.
  apply byte_val_inj. rewrite byte_val_of_Z.
  apply Z.mod_small, byte_val_range.
Qed.

Lemma length_le_bytes (n : nat) : forall v, length (le_bytes n v) = n.
Proof. induction n as [|n IH]; intros v; cbn; [reflexivity|now rewrite IH]. Qed.

Lemma rl_value_le_bytes (n : nat) : forall v,
  rl_value (le_bytes n v) = v mod 2 ^ (8 * Z.of_nat n).
Proof.
  induction n as [|n IH]; intros v.
  - cbn [le_bytes rl_value]. change (2 ^ (8 * Z.of_nat 0)) with 1.
    now rewrite Z.mod_1_r.
  - cbn [le_bytes rl_value]. rewrite byte_val_of_Z, IH.
    replace (8 * Z.of_nat (S n)) with (8 + 8 * Z.of_nat n) by lia.
    rewrite Z.pow_add_r by lia. change (2 ^ 8) with 256.
    rewrite Z.rem_mul_r by lia. reflexivity.
Qed.

Lemma le_bytes_rl_value (bs : list byte) :
  le_bytes (length bs) (rl_value bs) = bs.
Proof.
  induction bs as [|b bs IH]; [reflexivity|].
  cbn [length le_bytes rl_value]. pose proof (byte_val_range b) as R. f_equal.
  - apply byte_val_inj. rewrite byte_val_of_Z.
    rewrite (Z.mul_comm 256), Z.mod_add by lia.
    apply Z.mod_small. exact R.
  - rewrite (Z.mul_comm 256), Z.div_add by lia.
    rewrite Z.div_small by exact R. rewrite Z.add_0_l. exact IH.
Qed.

Lemma rl_value_le_bytes_int32 (v : Z) :
  int32_range v -> cast_int32 (rl_value (le_bytes 4 v)) = v.
Proof.
  intros H. rewrite rl_value_le_bytes.
  change (2 ^ (8 * Z.of_nat 4)) with (2 ^ 32).
  rewrite cast_int32_mod. apply cast_int32_small. exact H.
Qed.

(** ** Packets written and read back *)

Lemma rawmux_read_packet_layout
      (avctx : AVFormatContext) (pkt0 pkt : AVPacket) (rest : list byte) :
  packet_ok pkt ->
  pb avctx = mux_packet pkt ++ rest ->
  rawmux_read_packet avctx pkt0 = (0, set_pb rest avctx, pkt).
Proof.
  intros (Hidx & Hsize & Hmax & Hpts & Hdts) Hpb.
  unfold mux_packet in Hpb. cbn [app] in Hpb.
  rewrite <- !app_assoc in Hpb.
  rewrite (rawmux_read_packet_framed _ _ _ _ _ _ Hpb)
    by apply length_le_bytes.
  rewrite !rl_value_le_bytes.
  change (2 ^ (8 * Z.of_nat 4)) with (2 ^ 32).
  change (2 ^ (8 * Z.of_nat 8)) with (2 ^ 64).
  rewrite cast_int32_mod, cast_int64_mod.
  rewrite cast_int32_small by lia. rewrite cast_int64_small by lia.
  rewrite Hsize, av_get_packet_whole.
  destruct (Z.ltb_spec (Z.of_nat (length (data pkt))) 0); [lia|].
  rewrite byte_val_of_Z, Z.mod_small by lia.
  destruct pkt as [d n p q i]. cbn in *. subst n q. reflexivity.
Qed.

(** X1.  A packet laid out in the file (stream byte, size and timestamp
    little-endian, payload) is read back field for field, and the cursor
    stops right behind its payload: the call consumes the 13 bytes of the
    packet header and the payload, no more. *)
Theorem rawmux_read_packet_mux
        (avctx : AVFormatContext) (pkt0 pkt : AVPacket) (rest : list byte) :
  packet_ok pkt ->
  pb avctx = mux_packet pkt ++ rest ->
  rawmux_read_packet avctx pkt0 = (0, set_pb rest avctx, pkt) /\
  length (pb avctx) = (13 + length (data pkt) + length rest)%nat.
Proof.
  intros Hok Hpb. split.
  - apply rawmux_read_packet_layout; assumption.
  - rewrite Hpb. unfold mux_packet. cbn [length app].
    rewrite !length_app, !length_le_bytes. lia.
Qed.

Lemma rawmux_read_packet_mux_witness :
  rawmux_read_packet
    (mkCtx (mux_packet (mkPacket [xaa; xbb] 2 (- 5) (- 5) 3) ++ [xcc]) [] [])
    (mkPacket [] 0 0 0 0)
  = (0, mkCtx [xcc] [] [], mkPacket [xaa; xbb] 2 (- 5) (- 5) 3) /\
  length (mux_packet (mkPacket [xaa; xbb] 2 (- 5) (- 5) 3) ++ [xcc]) = 16%nat.
Proof.
  apply (rawmux_read_packet_mux
           (mkCtx (mux_packet (mkPacket [xaa; xbb] 2 (- 5) (- 5) 3) ++ [xcc]) [] [])
           (mkPacket [] 0 0 0 0) (mkPacket [xaa; xbb] 2 (- 5) (- 5) 3) [xcc]).
  - unfold packet_ok. cbn. repeat split; try reflexivity; try lia; discriminate.
  - reflexivity.
Defined.

Lemma read_packets_layout (pkts : list AVPacket) :
  forall (avctx : AVFormatContext) (pkt0 : AVPacket) (rest : list byte),
  Forall packet_ok pkts ->
  pb avctx = concat (map mux_packet pkts) ++ rest ->
  read_packets (length pkts) avctx pkt0 = (pkts, set_pb rest avctx).
Proof.
  induction pkts as [|p pkts IH]; intros avctx pkt0 rest Hok Hpb.
  - cbn in *. subst rest. destruct avctx; reflexivity.
  - inversion Hok as [|? ? Hp Hps]; subst.
    cbn [map concat] in Hpb. rewrite <- app_assoc in Hpb.
    cbn [length read_packets].
    rewrite (rawmux_read_packet_layout avctx pkt0 p _ Hp Hpb).
    change (0 <? 0) with false. cbv iota.
    rewrite (IH (set_pb (concat (map mux_packet pkts) ++ rest) avctx) pkt0 rest Hps)
      by reflexivity.
    reflexivity.
Qed.

(** X2.  Packets laid out one after the other are read back in order:
    [n] calls of the packet reader return the first [n] packets, and the
    cursor then stands on the next packet, none of whose bytes has been
    read. *)
Theorem read_packets_mux
        (pkts : list AVPacket) (avctx : AVFormatContext) (pkt0 : AVPacket)
        (rest : list byte) (n : nat) :
  Forall packet_ok pkts ->
  pb avctx = concat (map mux_packet pkts) ++ rest ->
  (n <= length pkts)%nat ->
  read_packets n avctx pkt0 =
  (firstn n pkts,
   set_pb (concat (map mux_packet (skipn n pkts)) ++ rest) avctx).
Proof.
  intros Hok Hpb Hn.
  rewrite <- (firstn_skipn n pkts) in Hpb, Hok.
  rewrite map_app, concat_app, <- app_assoc in Hpb.
  apply Forall_app in Hok. destruct Hok as [Hfirst _].
  assert (Hlen : length (firstn n pkts) = n) by (rewrite length_firstn; lia).
  rewrite <- Hlen at 1.
  apply read_packets_layout; assumption.
Qed.

Lemma read_packets_mux_witness :
  read_packets 1
    (mkCtx (concat (map mux_packet [mkPacket [xaa] 1 7 7 0;
                                    mkPacket [] 0 (- 1) (- 1) 255])
              ++ [xcc]) [] [])
    (mkPacket [] 0 0 0 0)
  = ([mkPacket [xaa] 1 7 7 0],
     mkCtx (concat (map mux_packet [mkPacket [] 0 (- 1) (- 1) 255]) ++ [xcc])
           [] []).
Proof.
  apply (read_packets_mux
           [mkPacket [xaa] 1 7 7 0; mkPacket [] 0 (- 1) (- 1) 255]
           (mkCtx (concat (map mux_packet [mkPacket [xaa] 1 7 7 0;
                                           mkPacket [] 0 (- 1) (- 1) 255])
                     ++ [xcc]) [] [])
           (mkPacket [] 0 0 0 0) [xcc] 1).
  - repeat constructor; cbn; try lia; discriminate.
  - reflexivity.
  - cbn. lia.
Defined.

Lemma avio_r8_value_range (s s' : AVIOContext) (v : Z) :
  avio_r8 s = (v, s') -> 0 <= v < 256.
Proof. intros H. pose proof (avio_r8_range s) as R. rewrite H in R. exact R. Qed.

Lemma avio_rl64_length (s s' : AVIOContext) (v : Z) :
  avio_rl64 s = (v, s') -> (length s' <= length s)%nat.
Proof.
  unfold avio_rl64.
  destruct (avio_rl32 s) as [a s1] eqn:E1. destruct (avio_rl32 s1) as [b s2] eqn:E2.
  intros H; inversion H; subst.
  apply avio_rl32_length in E1, E2. lia.
Qed.

Lemma av_get_packet_cases (s : AVIOContext) (pkt : AVPacket) (n : Z) :
  let '(ret, s', pkt') := av_get_packet s pkt n in
  (length s' <= length s)%nat /\
  (ret < 0 /\ data pkt' = [] /\ size pkt' = 0 \/
   ret = n /\ 0 <= n /\ size pkt' = n /\
   n = Z.of_nat (length (data pkt')) /\
   s = data pkt' ++ s').
Proof.
  unfold av_get_packet.
  destruct (Z.leb_spec 0 n) as [H0|H0];
    destruct (Z.leb_spec n (Z.of_nat (length s))) as [H1|H1]; cbn [andb].
  - split; [rewrite length_skipn; lia|]. right. cbn.
    rewrite length_firstn, firstn_skipn. repeat split; try reflexivity; lia.
  - split; [destruct (n <? 0); cbn; lia|]. left. repeat split; reflexivity.
  - split; [destruct (n <? 0); cbn; lia|]. left. repeat split; reflexivity.
  - split; [destruct (n <? 0); cbn; lia|]. left. repeat split; reflexivity.
Qed.

(** X3.  Whatever the input, the packet reader returns 0 or a negative value,
    never touches the catalog or the log, and never moves the cursor back;
    a packet it returns with 0 has a payload of exactly [size] bytes, a
    stream index below 256 and a timestamp in the range of [int64_t]; a
    packet it fails on has no payload. *)
Theorem rawmux_read_packet_result
        (avctx c' : AVFormatContext) (pkt pkt' : AVPacket) (ret : Z) :
  rawmux_read_packet avctx pkt = (ret, c', pkt') ->
  ret <= 0 /\
  streams c' = streams avctx /\ log c' = log avctx /\
  (length (pb c') <= length (pb avctx))%nat /\
  (ret = 0 ->
   size pkt' = Z.of_nat (length (data pkt')) /\ size pkt' < 2 ^ 31 /\
   0 <= stream_index pkt' < 256 /\
   - 2 ^ 63 <= pts pkt' < 2 ^ 63 /\ dts pkt' = pts pkt') /\
  (ret < 0 -> data pkt' = [] /\ size pkt' = 0).
Proof.
  unfold rawmux_read_packet.
  destruct (avio_r8 (pb avctx)) as [stream s1] eqn:E1.
  destruct (avio_rl32 s1) as [sz s2] eqn:E2.
  destruct (avio_rl64 s2) as [ts s3] eqn:E3.
  pose proof (av_get_packet_cases s3 pkt (cast_int32 sz)) as G.
  destruct (av_get_packet s3 pkt (cast_int32 sz)) as [[r s4] p].
  destruct G as [Gl G].
  pose proof (avio_r8_value_range _ _ _ E1) as Rs.
  apply avio_r8_length in E1. apply avio_rl32_length in E2.
  apply avio_rl64_length in E3.
  pose proof (cast_int32_range sz) as R32.
  assert (R64 : - 2 ^ 63 <= cast_int64 ts < 2 ^ 63).
  { unfold cast_int64. pose proof (Z.mod_pos_bound (ts + 2 ^ 63) (2 ^ 64)). lia. }
  destruct (Z.ltb_spec r 0) as [Hneg|Hpos]; intros H; inversion H; subst.
  - destruct G as [(_ & Gd & Gs)|(Gr & G0 & _)]; [|lia].
    cbn. repeat split; try lia; auto.
  - destruct G as [(Gr & _)|(Gr & G0 & Gs & Gd & _)]; [lia|].
    cbn. repeat split; try lia; auto.
Qed.

Lemma rawmux_read_packet_result_witness :
  size (mkPacket [xaa; xbb] 2 (- 2) (- 2) 7) = 2 /\
  0 <= stream_index (mkPacket [xaa; xbb] 2 (- 2) (- 2) 7) < 256 /\
  (length [xcc] <= 16)%nat.
Proof.
  destruct (rawmux_read_packet_result
              (mkCtx [x07; x02; x00; x00; x00;
                      xfe; xff; xff; xff; xff; xff; xff; xff; xaa; xbb; xcc] [] [])
              (mkCtx [xcc] [] [])
              (mkPacket [] 0 0 0 0) (mkPacket [xaa; xbb] 2 (- 2) (- 2) 7) 0
              eq_refl)
    as (_ & _ & _ & H4 & H5 & _).
  destruct (H5 eq_refl) as (K1 & _ & K3 & _).
  repeat split; try exact H4; try exact K1; apply K3.
Defined.

(** ** The catalog read from a table *)

Section Catalog.
Variable env : Collaborators.

Lemma stream_turn_exact (c : AVFormatContext) (d : descriptor) (rest : list byte) :
  acceptable env d ->
  pb c = encode d ++ rest ->
  stream_alloc_ok env (length (streams c)) = true ->
  (length (streams c) <= 255)%nat ->
  stream_turn env c =
  Continue (mkCtx rest (streams c ++ [stream_of env (length (streams c)) d]) (log c)).
Proof.
  intros Hd Hpb Halloc Hlen. destruct d as [name nb db wb hb|name rate ch].
  - destruct Hd as (Hname & Hn & Hdn & Hw & Hh & Hfmt & Hframe & Hnum).
    rewrite (stream_turn_video env c name nb db wb hb rest) by assumption.
    rewrite av_rescale_q_frame. cbn [num den].
    destruct (Z.eqb_spec (cast_int32 (rl_value nb)) 0); [contradiction|].
    reflexivity.
  - destruct Hd as (Hname & Hr & codec & Hfind & Htype & Hbits).
    rewrite (stream_turn_audio env c name rate ch rest codec) by assumption.
    cbn [stream_of]. rewrite Hfind. reflexivity.
Qed.

Lemma catalog_from_length (ds : list descriptor) : forall start,
  length (catalog_from env start ds) = length ds.
Proof. induction ds as [|d ds IH]; intros start; cbn; [reflexivity|now rewrite IH]. Qed.

(** Acceptable descriptors at the head of the table are read into the
    catalog one by one; the loop then goes on with what follows them. *)
Lemma read_streams_prefix (ds : list descriptor) :
  forall (c : AVFormatContext) (tail : list byte) (fuel : nat),
  (forall i, (length (streams c) <= i < length (streams c) + length ds)%nat ->
             stream_alloc_ok env i = true) ->
  Forall (acceptable env) ds ->
  pb c = concat (map encode ds) ++ tail ->
  (length (streams c) + length ds <= 256)%nat ->
  (length ds + length tail < fuel)%nat ->
  read_streams env fuel c =
  read_streams env (S (length tail))
    (mkCtx tail (streams c ++ catalog_from env (length (streams c)) ds) (log c)).
Proof.
  induction ds as [|d ds IH]; intros c tail fuel Halloc Hds Hpb Hlen Hfuel.
  - cbn [map concat app catalog_from] in *. rewrite app_nil_r.
    replace (mkCtx tail (streams c) (log c)) with c
      by (destruct c; cbn in *; congruence).
    apply read_streams_any_fuel; rewrite Hpb; cbn in *; lia.
  - destruct fuel as [|fuel]; [lia|].
    inversion Hds as [|? ? Hd Hds']; subst.
    cbn [map concat] in Hpb. rewrite <- app_assoc in Hpb.
    cbn [length] in Hlen, Hfuel, Halloc.
    rewrite read_streams_S.
    rewrite (stream_turn_exact c d _ Hd Hpb) by (try apply Halloc; lia).
    rewrite (IH (mkCtx (concat (map encode ds) ++ tail)
                       (streams c ++ [stream_of env (length (streams c)) d])
                       (log c)) tail fuel);
      cbn [streams log pb]; rewrite ?length_app; cbn [length];
      try assumption; try reflexivity; try lia.
    2:{ intros i Hi. apply Halloc. lia. }
    cbn [catalog_from]. rewrite <- app_assoc.
    replace (length (streams c) + 1)%nat with (S (length (streams c))) by lia.
    reflexivity.
Qed.

Lemma rawmux_read_header_prefix (avctx : AVFormatContext)
      (magic : list byte) (ds : list descriptor) (tail : list byte) :
  (forall i, (length (streams avctx) <= i < length (streams avctx) + length ds)%nat ->
             stream_alloc_ok env i = true) ->
  length magic = 6%nat ->
  Forall (acceptable env) ds ->
  (length (streams avctx) + length ds <= 256)%nat ->
  pb avctx = magic ++ x01 :: concat (map encode ds) ++ tail ->
  rawmux_read_header env avctx =
  read_streams env (S (length tail))
    (mkCtx tail
           (streams avctx ++ catalog_from env (length (streams avctx)) ds)
           (log avctx)).
Proof.
  intros Halloc Hm Hds Hlen Hpb.
  rewrite (rawmux_read_header_start env _ _ _ _ Hm Hpb).
  change (negb (byte_val x01 =? 1)) with false. cbv iota.
  rewrite (read_streams_prefix ds
             (set_pb (concat (map encode ds) ++ tail) avctx) tail _
             Halloc Hds eq_refl);
    cbn [streams set_pb log]; [reflexivity|lia|].
  pose proof (encode_nonempty ds). rewrite length_app. lia.
Qed.

End Catalog.

(** ** Every way a turn of the loop can end *)

Lemma AVMediaType_eqb_eq (a b : AVMediaType) :
  AVMediaType_eqb a b = true -> a = b.
Proof. destruct a, b; cbn; congruence. Qed.

Section Turns.
Variable env : Collaborators.

Lemma video_stream_shape (p : AVIOContext) (ss : list AVStream)
      (l : list log_msg) (st0 : AVStream) :
  turn_shape env p ss l (index st0)
             (video_stream env st0 (mkCtx p (ss ++ [st0]) l)).
Proof.
  unfold video_stream. cbn [pb].
  destruct (avio_get_str p 32 32) as [name s1] eqn:E1.
  apply avio_get_str_length in E1.
  cbn [format set_format].
  destruct (Z.eqb_spec (av_get_pix_fmt env (string_of_list_byte name))
                       AV_PIX_FMT_NONE) as [Hf|Hf].
  { cbn -[removelast app]. rewrite removelast_last.
    split; [lia|]. split; [eexists; split; reflexivity|].
    right. split; [eexists; reflexivity|reflexivity]. }
  destruct (avio_rl32 s1) as [n s2] eqn:E2.
  destruct (avio_rl32 s2) as [d s3] eqn:E3.
  destruct (avio_rl32 s3) as [w s4] eqn:E4.
  destruct (avio_rl32 s4) as [h s5] eqn:E5.
  apply avio_rl32_length in E2, E3, E4, E5.
  cbn -[removelast app av_rescale_q].
  set (frame := av_image_get_buffer_size env _ _ _ 1).
  destruct (Z.ltb_spec frame 0) as [Hneg|Hpos].
  { unfold store_stream. cbn -[removelast app]. rewrite removelast_last.
    split; [lia|]. split; [eexists; split; reflexivity|].
    left. split; [reflexivity|]. intros H; inversion H; lia. }
  destruct (av_rescale_q frame _ _) as [r|].
  - unfold store_stream. cbn -[removelast app]. rewrite removelast_last.
    split; [lia|]. split; [reflexivity|].
    eexists. split; [reflexivity|]. split; [reflexivity|].
    split; [reflexivity|]. left. cbn. auto.
  - unfold store_stream. cbn -[removelast app]. rewrite removelast_last.
    split; [lia|]. split; [eexists; split; reflexivity|].
    left. split; [reflexivity|discriminate].
Qed.

Lemma audio_stream_shape (p : AVIOContext) (ss : list AVStream)
      (l : list log_msg) (st0 : AVStream) :
  turn_shape env p ss l (index st0)
             (audio_stream env st0 (mkCtx p (ss ++ [st0]) l)).
Proof.
  unfold audio_stream. cbn [pb].
  destruct (avio_get_str p (32 - 4) (32 - 4)) as [suffix s1] eqn:E1.
  apply avio_get_str_length in E1.
  destruct (avcodec_find_decoder_by_name env _) as [codec|] eqn:Ef.
  2:{ cbn. split; [lia|]. split; [eexists; split; reflexivity|].
      right. split; [eexists; reflexivity|reflexivity]. }
  destruct (AVMediaType_eqb (AVCodec_type codec) AVMEDIA_TYPE_AUDIO) eqn:Et;
    cbn [negb].
  2:{ cbn. split; [lia|]. split; [eexists; split; reflexivity|].
      right. split; [eexists; reflexivity|reflexivity]. }
  apply AVMediaType_eqb_eq in Et.
  destruct (avio_rl32 s1) as [rate s2] eqn:E2.
  destruct (avio_r8 s2) as [ch s3] eqn:E3.
  apply avio_rl32_length in E2. apply avio_r8_length in E3.
  cbn -[removelast app].
  destruct (Z.gtb_spec (av_get_bits_per_sample env (AVCodec_id codec)) 0).
  - unfold store_stream. cbn -[removelast app]. rewrite removelast_last.
    split; [lia|]. split; [reflexivity|].
    eexists. split; [reflexivity|]. split; [reflexivity|].
    split; [reflexivity|]. right. cbn.
    split; [reflexivity|]. exists (string_of_list_byte suffix), codec. auto.
  - unfold store_stream. cbn -[removelast app]. rewrite removelast_last.
    split; [lia|]. split; [eexists; split; reflexivity|].
    left. split; [reflexivity|discriminate].
Qed.

(** How a turn ends, whatever the input. *)
Lemma stream_turn_shape (c : AVFormatContext) :
  match stream_turn env c with
  | Continue c' =>
      turn_shape env (pb c) (streams c) (log c)
                 (Z.of_nat (length (streams c))) (Continue c') /\
      (length (streams c) <= 255)%nat
  | Done r c' =>
      (length (pb c') <= length (pb c))%nat /\
      (streams c' = streams c \/ exists st, streams c' = streams c ++ [st]) /\
      (log c' = log c \/
       (exists m, log c' = log c ++ [m]) /\ r = Return AVERROR_INVALIDDATA)
  end.
Proof.
  unfold stream_turn.
  destruct (avio_r8 (pb c)) as [t s] eqn:E.
  pose proof (avio_r8_value_range _ _ _ E) as Rt. apply avio_r8_length in E.
  unfold STREAM_NONE, STREAM_AUDIO, STREAM_VIDEO.
  destruct (Z.eqb_spec t 0) as [H0|H0].
  { cbn. auto. }
  destruct (Z.gtb_spec t 2) as [H2|H2].
  { cbn. split; [lia|]. split; [auto|]. right. eauto. }
  unfold avformat_new_stream. cbn [streams set_pb pb log].
  destruct (stream_alloc_ok env (length (streams c))).
  2:{ cbn. auto. }
  set (st0 := mkStream (Z.of_nat (length (streams c))) default_codecpar
                       (mkRational 0 1) 0).
  cbn [index]. fold st0.
  destruct (Z.gtb_spec (index st0) 255) as [Hi|Hi]; cbn [index st0] in Hi.
  { cbn. split; [lia|]. split; [eauto|]. right. eauto. }
  assert (Hfin :
            forall u : turn,
              turn_shape env s (streams c) (log c) (index st0) u ->
              match u with
              | Continue c' =>
                  turn_shape env (pb c) (streams c) (log c)
                             (Z.of_nat (length (streams c))) (Continue c') /\
                  (length (streams c) <= 255)%nat
              | Done r c' =>
                  (length (pb c') <= length (pb c))%nat /\
                  (streams c' = streams c \/
                   exists st, streams c' = streams c ++ [st]) /\
                  (log c' = log c \/
                   (exists m, log c' = log c ++ [m]) /\
                   r = Return AVERROR_INVALIDDATA)
              end).
  { intros [r c'|c']; cbn [turn_shape].
    - intros (V1 & (st & V2 & _) & V3). split; [lia|]. split; [eauto|].
      destruct V3 as [[V3 _]|V3]; auto.
    - intros (V1 & V2 & V3). split; [|lia]. split; [lia|]. auto. }
  destruct (Z.eqb_spec t 1) as [H1|H1].
  { apply Hfin, video_stream_shape. }
  destruct (Z.eqb_spec t 2) as [H3|H3]; [|lia].
  apply Hfin, audio_stream_shape.
Qed.

Lemma read_streams_shape (fuel : nat) : forall (c c' : AVFormatContext) r,
  read_streams env fuel c = Some (r, c') ->
  (length (pb c') <= length (pb c))%nat /\
  (exists new, streams c' = streams c ++ new) /\
  (log c' = log c \/
   (exists m, log c' = log c ++ [m]) /\ r = Return AVERROR_INVALIDDATA).
Proof.
  induction fuel as [|fuel IH]; intros c c' r H; [discriminate|].
  rewrite read_streams_S in H. pose proof (stream_turn_shape c) as T.
  destruct (stream_turn env c) as [r0 c0|c0].
  - inversion H; subst r0 c0. destruct T as (T1 & T2 & T3).
    split; [exact T1|]. split; [|exact T3].
    destruct T2 as [T2|[st T2]]; [exists []; rewrite app_nil_r|exists [st]];
      exact T2.
  - destruct T as [(T1 & T2 & st & T3 & _) _].
    destruct (IH _ _ _ H) as (I1 & (new & I2) & I3).
    split; [lia|]. split.
    + exists (st :: new). rewrite I2, T3, <- app_assoc. reflexivity.
    + rewrite T2 in I3. exact I3.
Qed.

(** The streams added by a successful run of the loop. *)
Lemma read_streams_added (fuel : nat) : forall (c c' : AVFormatContext),
  read_streams env fuel c = Some (Return 0, c') ->
  exists new,
    streams c' = streams c ++ new /\
    (length (streams c) + length new <= Nat.max (length (streams c)) 256)%nat /\
    forall i st, nth_error new i = Some st ->
      index st = Z.of_nat (length (streams c) + i) /\
      pts_wrap_bits st = 64 /\
      (codec_type (codecpar st) = AVMEDIA_TYPE_VIDEO /\
       codec_id (codecpar st) = AV_CODEC_ID_RAWVIDEO env /\
       format (codecpar st) <> AV_PIX_FMT_NONE \/
       codec_type (codecpar st) = AVMEDIA_TYPE_AUDIO /\
       exists suffix codec,
         avcodec_find_decoder_by_name env
           (String.append "pcm_" suffix) = Some codec /\
         AVCodec_type codec = AVMEDIA_TYPE_AUDIO /\
         codec_id (codecpar st) = AVCodec_id codec /\
         bits_per_coded_sample (codecpar st) =
           av_get_bits_per_sample env (AVCodec_id codec)).
Proof.
  induction fuel as [|fuel IH]; intros c c' H; [discriminate|].
  rewrite read_streams_S in H. pose proof (stream_turn_shape c) as T.
  pose proof (stream_turn_spec env c) as U.
  destruct (stream_turn env c) as [r0 c0|c0].
  - inversion H; subst r0 c0. destruct U as (U1 & _).
    destruct (U1 eq_refl) as [Us _].
    exists []. rewrite app_nil_r. split; [exact Us|]. split; [cbn; lia|].
    intros [|i] st E; discriminate.
  - destruct T as [(T1 & T2 & st & T3 & T4 & T5 & T6) T7].
    destruct (IH _ _ H) as (new & I1 & I2 & I3).
    exists (st :: new). rewrite I1, T3, <- app_assoc.
    split; [reflexivity|].
    rewrite T3, length_app in I2, I3. cbn [length] in *.
    split; [lia|].
    intros [|i] st' E; cbn [nth_error] in E.
    + inversion E; subst st'. rewrite Nat.add_0_r. auto.
    + destruct (I3 i st' E) as (J1 & J2). split; [|exact J2].
      rewrite J1. f_equal. lia.
Qed.

End Turns.

(** ** The error sites of the header reader *)

Section Errors.
Variable env : Collaborators.

(** The turn on a descriptor with a valid type byte, up to the point where
    the two kinds of stream part. *)
Lemma stream_turn_typed (c : AVFormatContext) (t : byte) (rest : list byte) :
  pb c = t :: rest ->
  t = x01 \/ t = x02 ->
  stream_alloc_ok env (length (streams c)) = true ->
  (length (streams c) <= 255)%nat ->
  let st0 := mkStream (Z.of_nat (length (streams c))) default_codecpar
                      (mkRational 0 1) 0 in
  let c1 := mkCtx rest (streams c ++ [st0]) (log c) in
  stream_turn env c =
  if Byte.eqb t x01 then video_stream env st0 c1 else audio_stream env st0 c1.
Proof.
  intros Hpb Ht Halloc Hlen. unfold stream_turn. rewrite Hpb, avio_r8_cons.
  unfold avformat_new_stream. cbn [streams set_pb pb log].
  rewrite Halloc. cbn [index].
  destruct (Z.gtb_spec (Z.of_nat (length (streams c))) 255); [lia|].
  destruct Ht; subst t; reflexivity.
Qed.

Lemma stream_turn_bad_pix_fmt (c : AVFormatContext) (name rest : list byte) :
  pb c = x01 :: name ++ x00 :: rest ->
  name_fits 31 name ->
  av_get_pix_fmt env (string_of_list_byte name) = AV_PIX_FMT_NONE ->
  stream_alloc_ok env (length (streams c)) = true ->
  (length (streams c) <= 255)%nat ->
  let idx := Z.of_nat (length (streams c)) in
  stream_turn env c =
  Done (Return AVERROR_INVALIDDATA)
       (mkCtx rest
              (streams c ++
               [mkStream idx
                  (mkPar AVMEDIA_TYPE_VIDEO (AV_CODEC_ID_RAWVIDEO env)
                         AV_PIX_FMT_NONE 0 0 0 0 0 0 0)
                  (mkRational 0 1) 0])
              (log c ++ [Invalid_pixel_format (string_of_list_byte name) idx])).
Proof.
  intros Hpb Hname Hfmt Halloc Hlen idx.
  rewrite (stream_turn_typed c x01 _ Hpb) by auto.
  change (Byte.eqb x01 x01) with true. cbv iota.
  unfold video_stream. cbn [pb].
  rewrite (avio_get_str_name 31) by assumption.
  cbn [format set_format]. rewrite Hfmt.
  change (AV_PIX_FMT_NONE =? AV_PIX_FMT_NONE) with true. cbv iota.
  unfold store_stream. cbn -[removelast app]. rewrite removelast_last.
  reflexivity.
Qed.

Lemma stream_turn_bad_codec (c : AVFormatContext) (name rest : list byte) :
  pb c = x02 :: name ++ x00 :: rest ->
  name_fits 27 name ->
  (forall codec,
      avcodec_find_decoder_by_name env
        (String.append "pcm_" (string_of_list_byte name)) = Some codec ->
      AVCodec_type codec <> AVMEDIA_TYPE_AUDIO) ->
  stream_alloc_ok env (length (streams c)) = true ->
  (length (streams c) <= 255)%nat ->
  let idx := Z.of_nat (length (streams c)) in
  stream_turn env c =
  Done (Return AVERROR_INVALIDDATA)
       (mkCtx rest
              (streams c ++
               [mkStream idx default_codecpar (mkRational 0 1) 0])
              (log c ++
               [Invalid_codec
                  (String.append "pcm_" (string_of_list_byte name)) idx])).
Proof.
  intros Hpb Hname Hbad Halloc Hlen idx.
  rewrite (stream_turn_typed c x02 _ Hpb) by auto.
  change (Byte.eqb x02 x01) with false. cbv iota.
  unfold audio_stream. cbn [pb]. change (32 - 4)%nat with 28%nat.
  rewrite (avio_get_str_name 27) by assumption.
  destruct (avcodec_find_decoder_by_name env _) as [codec|] eqn:E;
    [|reflexivity].
  specialize (Hbad codec eq_refl).
  destruct (AVMediaType_eqb (AVCodec_type codec) AVMEDIA_TYPE_AUDIO) eqn:Et.
  - apply AVMediaType_eqb_eq in Et. contradiction.
  - reflexivity.
Qed.

Lemma stream_turn_bad_geometry (c : AVFormatContext)
      (name nb db wb hb rest : list byte) :
  pb c = encode (VideoDesc name nb db wb hb) ++ rest ->
  name_fits 31 name ->
  length nb = 4%nat -> length db = 4%nat ->
  length wb = 4%nat -> length hb = 4%nat ->
  av_get_pix_fmt env (string_of_list_byte name) <> AV_PIX_FMT_NONE ->
  av_image_get_buffer_size env
    (av_get_pix_fmt env (string_of_list_byte name))
    (cast_int32 (rl_value wb)) (cast_int32 (rl_value hb)) 1 < 0 ->
  stream_alloc_ok env (length (streams c)) = true ->
  (length (streams c) <= 255)%nat ->
  let fmt := av_get_pix_fmt env (string_of_list_byte name) in
  let w := cast_int32 (rl_value wb) in
  let h := cast_int32 (rl_value hb) in
  stream_turn env c =
  Done (Return (av_image_get_buffer_size env fmt w h 1))
       (mkCtx rest
              (streams c ++
               [mkStream (Z.of_nat (length (streams c)))
                  (mkPar AVMEDIA_TYPE_VIDEO (AV_CODEC_ID_RAWVIDEO env)
                         fmt w h 0 0 0 0 0)
                  (mkRational (cast_int32 (rl_value nb))
                              (cast_int32 (rl_value db))) 64])
              (log c)).
Proof.
  intros Hpb Hname Hn Hd Hw Hh Hfmt Hframe Halloc Hlen fmt w h.
  rewrite encode_video_app in Hpb.
  rewrite (stream_turn_typed c x01 _ Hpb) by auto.
  change (Byte.eqb x01 x01) with true. cbv iota.
  unfold video_stream. cbn [pb].
  rewrite (avio_get_str_name 31) by assumption.
  cbn [format set_format].
  destruct (Z.eqb_spec (av_get_pix_fmt env (string_of_list_byte name))
                       AV_PIX_FMT_NONE) as [E|E]; [contradiction|].
  rewrite !avio_rl32_app by assumption.
  cbn -[av_rescale_q removelast app].
  destruct (Z.ltb_spec
              (av_image_get_buffer_size env
                 (av_get_pix_fmt env (string_of_list_byte name))
                 (cast_int32 (rl_value wb)) (cast_int32 (rl_value hb)) 1) 0);
    [|lia].
  unfold store_stream, avpriv_set_pts_info, set_codecpar.
  cbn -[removelast app].
  rewrite !cast_int32_uint32, !cast_int32_idem, removelast_last.
  reflexivity.
Qed.

Lemma stream_turn_no_memory (c : AVFormatContext) (t : byte) (rest : list byte) :
  pb c = t :: rest ->
  t = x01 \/ t = x02 ->
  stream_alloc_ok env (length (streams c)) = false ->
  stream_turn env c =
  Done (Return (AVERROR ENOMEM)) (mkCtx rest (streams c) (log c)).
Proof.
  intros Hpb Ht Halloc. unfold stream_turn. rewrite Hpb, avio_r8_cons.
  unfold avformat_new_stream. cbn [streams set_pb pb log]. rewrite Halloc.
  destruct Ht; subst t; reflexivity.
Qed.

Lemma stream_turn_no_bits (c : AVFormatContext)
      (name rate : list byte) (ch : byte) (rest : list byte) (codec : AVCodec) :
  pb c = encode (AudioDesc name rate ch) ++ rest ->
  name_fits 27 name ->
  length rate = 4%nat ->
  avcodec_find_decoder_by_name env
    (String.append "pcm_" (string_of_list_byte name)) = Some codec ->
  AVCodec_type codec = AVMEDIA_TYPE_AUDIO ->
  av_get_bits_per_sample env (AVCodec_id codec) <= 0 ->
  stream_alloc_ok env (length (streams c)) = true ->
  (length (streams c) <= 255)%nat ->
  exists c', stream_turn env c = Done Aborted c' /\ log c' = log c.
Proof.
  intros Hpb Hname Hr Hfind Htype Hbits Halloc Hlen.
  rewrite encode_audio_app in Hpb.
  rewrite (stream_turn_typed c x02 _ Hpb) by auto.
  change (Byte.eqb x02 x01) with false. cbv iota.
  unfold audio_stream. cbn [pb]. change (32 - 4)%nat with 28%nat.
  rewrite (avio_get_str_name 27) by assumption.
  rewrite Hfind, Htype. cbn [AVMediaType_eqb negb].
  rewrite avio_rl32_app by assumption. rewrite avio_r8_cons.
  cbn -[removelast app].
  destruct (Z.gtb_spec (av_get_bits_per_sample env (AVCodec_id codec)) 0);
    [lia|].
  eexists. split; reflexivity.
Qed.

(** The header reader on a table that starts with acceptable descriptors
    and whose next turn ends the call. *)
Lemma rawmux_read_header_after (avctx : AVFormatContext)
      (magic : list byte) (ds : list descriptor) (tail : list byte)
      (r : outcome) (c' : AVFormatContext) :
  (forall i, (length (streams avctx) <= i < length (streams avctx) + length ds)%nat ->
             stream_alloc_ok env i = true) ->
  length magic = 6%nat ->
  Forall (acceptable env) ds ->
  (length (streams avctx) + length ds <= 256)%nat ->
  pb avctx = magic ++ x01 :: concat (map encode ds) ++ tail ->
  stream_turn env
    (mkCtx tail
           (streams avctx ++ catalog_from env (length (streams avctx)) ds)
           (log avctx)) = Done r c' ->
  rawmux_read_header env avctx = Some (r, c').
Proof.
  intros Halloc Hm Hds Hlen Hpb Hturn.
  rewrite (rawmux_read_header_prefix env _ _ _ _ Halloc Hm Hds Hlen Hpb).
  rewrite read_streams_S, Hturn. reflexivity.
Qed.

End Errors.

(** ** Tables read by the header reader *)

Section Tables.
Variable env : Collaborators.

Lemma catalog_length (ss : list AVStream) (ds : list descriptor) :
  length (ss ++ catalog_from env (length ss) ds) = (length ss + length ds)%nat.
Proof. rewrite length_app, catalog_from_length. reflexivity. Qed.

End Tables.

(** X4.  A table of acceptable descriptors followed by the terminator is
    read into the catalog descriptor by descriptor: the call returns 0, the
    streams already in the context are kept, the new ones are exactly the
    streams the descriptors stand for, in order, and the cursor stops
    behind the terminator. *)
Theorem rawmux_read_header_table_catalog
        (env : Collaborators) (avctx : AVFormatContext)
        (magic : list byte) (ds : list descriptor) (rest : list byte) :
  (forall i, (length (streams avctx) <= i < length (streams avctx) + length ds)%nat ->
             stream_alloc_ok env i = true) ->
  length magic = 6%nat ->
  Forall (acceptable env) ds ->
  (length (streams avctx) + length ds <= 256)%nat ->
  pb avctx = magic ++ x01 :: concat (map encode ds) ++ x00 :: rest ->
  rawmux_read_header env avctx =
  Some (Return 0,
        mkCtx rest
              (streams avctx ++ catalog_from env (length (streams avctx)) ds)
              (log avctx)).
Proof.
  intros Halloc Hm Hds Hlen Hpb.
  apply (rawmux_read_header_after env avctx magic ds (x00 :: rest));
    try assumption.
  unfold stream_turn. cbn [pb]. rewrite avio_r8_cons.
  change (byte_val x00 =? STREAM_NONE) with true. reflexivity.
Qed.

Lemma demo_video_acceptable : acceptable demo_env demo_video.
Proof.
  cbn. split; [split; [repeat constructor; discriminate|cbn; lia]|].
  repeat split; try reflexivity; vm_compute; congruence.
Qed.

Lemma demo_alloc (n : nat) (i : nat) :
  (0 <= i < 0 + n)%nat -> stream_alloc_ok demo_env i = true.
Proof. reflexivity. Qed.

Lemma rawmux_read_header_table_catalog_witness :
  rawmux_read_header demo_env
    (mkCtx (HEADER ++ x01 :: concat (map encode [demo_video; demo_audio])
              ++ x00 :: [xff]) [] []) =
  Some (Return 0,
        mkCtx [xff] ([] ++ catalog_from demo_env 0 [demo_video; demo_audio]) []).
Proof.
  apply (rawmux_read_header_table_catalog demo_env
           (mkCtx (HEADER ++ x01 :: concat (map encode [demo_video; demo_audio])
                     ++ x00 :: [xff]) [] [])
           HEADER [demo_video; demo_audio] [xff]).
  - apply demo_alloc.
  - reflexivity.
  - apply Forall_cons; [exact demo_video_acceptable|].
    apply Forall_cons; [exact demo_audio_acceptable|apply Forall_nil].
  - cbn. lia.
  - reflexivity.
Defined.

(** X5.  A table that stops at the end of the input, without terminator,
    is read like a terminated one: the reader gets 0 for the missing type
    byte and returns 0 with the streams read so far. *)
Theorem rawmux_read_header_end_of_input
        (env : Collaborators) (avctx : AVFormatContext)
        (magic : list byte) (ds : list descriptor) :
  (forall i, (length (streams avctx) <= i < length (streams avctx) + length ds)%nat ->
             stream_alloc_ok env i = true) ->
  length magic = 6%nat ->
  Forall (acceptable env) ds ->
  (length (streams avctx) + length ds <= 256)%nat ->
  pb avctx = magic ++ x01 :: concat (map encode ds) ->
  rawmux_read_header env avctx =
  Some (Return 0,
        mkCtx []
              (streams avctx ++ catalog_from env (length (streams avctx)) ds)
              (log avctx)).
Proof.
  intros Halloc Hm Hds Hlen Hpb.
  apply (rawmux_read_header_after env avctx magic ds []); try assumption.
  - rewrite app_nil_r. exact Hpb.
  - reflexivity.
Qed.

Lemma rawmux_read_header_end_of_input_witness :
  rawmux_read_header demo_env
    (mkCtx (HEADER ++ x01 :: concat (map encode [demo_audio])) [] []) =
  Some (Return 0, mkCtx [] ([] ++ catalog_from demo_env 0 [demo_audio]) []).
Proof.
  apply (rawmux_read_header_end_of_input demo_env
           (mkCtx (HEADER ++ x01 :: concat (map encode [demo_audio])) [] [])
           HEADER [demo_audio]).
  - apply demo_alloc.
  - reflexivity.
  - apply Forall_cons; [exact demo_audio_acceptable|apply Forall_nil].
  - cbn. lia.
  - reflexivity.
Defined.

(** X6.  A video descriptor whose pixel-format name the registry does not
    know ends the call with [AVERROR_INVALIDDATA]; the message carries the
    name as read and the index of the stream, which is the number of
    streams before it; the streams read before stay in the catalog, followed
    by the stream allocated for the failed descriptor. *)
Theorem rawmux_read_header_invalid_pix_fmt
        (env : Collaborators) (avctx : AVFormatContext)
        (magic : list byte) (ds : list descriptor) (name rest : list byte) :
  (forall i, (length (streams avctx) <= i <= length (streams avctx) + length ds)%nat ->
             stream_alloc_ok env i = true) ->
  length magic = 6%nat ->
  Forall (acceptable env) ds ->
  (length (streams avctx) + length ds <= 255)%nat ->
  name_fits 31 name ->
  av_get_pix_fmt env (string_of_list_byte name) = AV_PIX_FMT_NONE ->
  pb avctx =
    magic ++ x01 :: concat (map encode ds) ++ x01 :: name ++ x00 :: rest ->
  let idx := Z.of_nat (length (streams avctx) + length ds) in
  rawmux_read_header env avctx =
  Some (Return AVERROR_INVALIDDATA,
        mkCtx rest
              ((streams avctx ++ catalog_from env (length (streams avctx)) ds) ++
               [mkStream idx
                  (mkPar AVMEDIA_TYPE_VIDEO (AV_CODEC_ID_RAWVIDEO env)
                         AV_PIX_FMT_NONE 0 0 0 0 0 0 0)
                  (mkRational 0 1) 0])
              (log avctx ++
               [Invalid_pixel_format (string_of_list_byte name) idx])).
Proof.
  intros Halloc Hm Hds Hlen Hname Hfmt Hpb idx.
  apply (rawmux_read_header_after env avctx magic ds
           (x01 :: name ++ x00 :: rest)); try assumption; try lia.
  - intros i Hi. apply Halloc. lia.
  - rewrite (stream_turn_bad_pix_fmt env _ name rest); try assumption;
      cbn [pb streams log]; rewrite ?catalog_length; try reflexivity; try lia.
    apply Halloc. lia.
Qed.

Lemma rawmux_read_header_invalid_pix_fmt_witness :
  rawmux_read_header demo_env
    (mkCtx (HEADER ++ x01 :: concat (map encode [demo_audio])
              ++ x01 :: [x78; x79] ++ x00 :: [xff]) [] []) =
  Some (Return AVERROR_INVALIDDATA,
        mkCtx [xff]
              (([] ++ catalog_from demo_env 0 [demo_audio]) ++
               [mkStream 1
                  (mkPar AVMEDIA_TYPE_VIDEO 13 AV_PIX_FMT_NONE 0 0 0 0 0 0 0)
                  (mkRational 0 1) 0])
              ([] ++ [Invalid_pixel_format "xy" 1])).
Proof.
  apply (rawmux_read_header_invalid_pix_fmt demo_env
           (mkCtx (HEADER ++ x01 :: concat (map encode [demo_audio])
                     ++ x01 :: [x78; x79] ++ x00 :: [xff]) [] [])
           HEADER [demo_audio] [x78; x79] [xff]).
  - reflexivity.
  - reflexivity.
  - apply Forall_cons; [exact demo_audio_acceptable|apply Forall_nil].
  - cbn. lia.
  - split; [repeat constructor; discriminate|cbn; lia].
  - reflexivity.
  - reflexivity.
Defined.

(** X7.  An audio descriptor whose name, prefixed with ["pcm_"], is not the
    name of an audio codec (unknown, or a codec of another media type) ends
    the call with [AVERROR_INVALIDDATA]; the message carries the prefixed
    name and the index of the stream, and the stream allocated for the
    descriptor is left as allocated. *)
Theorem rawmux_read_header_invalid_codec
        (env : Collaborators) (avctx : AVFormatContext)
        (magic : list byte) (ds : list descriptor) (name rest : list byte) :
  (forall i, (length (streams avctx) <= i <= length (streams avctx) + length ds)%nat ->
             stream_alloc_ok env i = true) ->
  length magic = 6%nat ->
  Forall (acceptable env) ds ->
  (length (streams avctx) + length ds <= 255)%nat ->
  name_fits 27 name ->
  (forall codec,
      avcodec_find_decoder_by_name env
        (String.append "pcm_" (string_of_list_byte name)) = Some codec ->
      AVCodec_type codec <> AVMEDIA_TYPE_AUDIO) ->
  pb avctx =
    magic ++ x01 :: concat (map encode ds) ++ x02 :: name ++ x00 :: rest ->
  let idx := Z.of_nat (length (streams avctx) + length ds) in
  rawmux_read_header env avctx =
  Some (Return AVERROR_INVALIDDATA,
        mkCtx rest
              ((streams avctx ++ catalog_from env (length (streams avctx)) ds) ++
               [mkStream idx default_codecpar (mkRational 0 1) 0])
              (log avctx ++
               [Invalid_codec
                  (String.append "pcm_" (string_of_list_byte name)) idx])).
Proof.
  intros Halloc Hm Hds Hlen Hname Hbad Hpb idx.
  apply (rawmux_read_header_after env avctx magic ds
           (x02 :: name ++ x00 :: rest)); try assumption; try lia.
  - intros i Hi. apply Halloc. lia.
  - rewrite (stream_turn_bad_codec env _ name rest); try assumption;
      cbn [pb streams log]; rewrite ?catalog_length; try reflexivity; try lia.
    apply Halloc. lia.
Qed.

Lemma rawmux_read_header_invalid_codec_witness :
  rawmux_read_header demo_env2
    (mkCtx (HEADER ++ x01 :: concat (map encode [])
              ++ x02 :: [x76; x69; x64; x65; x6f] ++ x00 :: [xff]) [] []) =
  Some (Return AVERROR_INVALIDDATA,
        mkCtx [xff]
              (([] ++ catalog_from demo_env2 0 []) ++
               [mkStream 0 default_codecpar (mkRational 0 1) 0])
              ([] ++ [Invalid_codec "pcm_video" 0])).
Proof.
  apply (rawmux_read_header_invalid_codec demo_env2
           (mkCtx (HEADER ++ x01 :: concat (map encode [])
                     ++ x02 :: [x76; x69; x64; x65; x6f] ++ x00 :: [xff]) [] [])
           HEADER [] [x76; x69; x64; x65; x6f] [xff]).
  - intros i Hi. cbn in Hi. assert (i = 0%nat) as -> by lia. reflexivity.
  - reflexivity.
  - apply Forall_nil.
  - cbn. lia.
  - split; [repeat constructor; discriminate|cbn; lia].
  - intros codec H. vm_compute in H. inversion H; subst. discriminate.
  - reflexivity.
Defined.

(** X8.  When the buffer-size computation fails for a video descriptor, the
    call returns its negative value unchanged and logs nothing; time base,
    width and height have been stored in the stream by then. *)
Theorem rawmux_read_header_buffer_size_error
        (env : Collaborators) (avctx : AVFormatContext)
        (magic : list byte) (ds : list descriptor)
        (name nb db wb hb rest : list byte) :
  (forall i, (length (streams avctx) <= i <= length (streams avctx) + length ds)%nat ->
             stream_alloc_ok env i = true) ->
  length magic = 6%nat ->
  Forall (acceptable env) ds ->
  (length (streams avctx) + length ds <= 255)%nat ->
  name_fits 31 name ->
  length nb = 4%nat -> length db = 4%nat ->
  length wb = 4%nat -> length hb = 4%nat ->
  av_get_pix_fmt env (string_of_list_byte name) <> AV_PIX_FMT_NONE ->
  av_image_get_buffer_size env
    (av_get_pix_fmt env (string_of_list_byte name))
    (cast_int32 (rl_value wb)) (cast_int32 (rl_value hb)) 1 < 0 ->
  pb avctx =
    magic ++ x01 :: concat (map encode ds)
          ++ encode (VideoDesc name nb db wb hb) ++ rest ->
  let fmt := av_get_pix_fmt env (string_of_list_byte name) in
  let w := cast_int32 (rl_value wb) in
  let h := cast_int32 (rl_value hb) in
  rawmux_read_header env avctx =
  Some (Return (av_image_get_buffer_size env fmt w h 1),
        mkCtx rest
              ((streams avctx ++ catalog_from env (length (streams avctx)) ds) ++
               [mkStream (Z.of_nat (length (streams avctx) + length ds))
                  (mkPar AVMEDIA_TYPE_VIDEO (AV_CODEC_ID_RAWVIDEO env)
                         fmt w h 0 0 0 0 0)
                  (mkRational (cast_int32 (rl_value nb))
                              (cast_int32 (rl_value db))) 64])
              (log avctx)).
Proof.
  intros Halloc Hm Hds Hlen Hname Hn Hd Hw Hh Hfmt Hframe Hpb fmt w h.
  apply (rawmux_read_header_after env avctx magic ds
           (encode (VideoDesc name nb db wb hb) ++ rest));
    try assumption; try lia.
  - intros i Hi. apply Halloc. lia.
  - rewrite (stream_turn_bad_geometry env _ name nb db wb hb rest);
      try assumption;
      cbn [pb streams log]; rewrite ?catalog_length; try reflexivity; try lia.
    apply Halloc. lia.
Qed.

Lemma rawmux_read_header_buffer_size_error_witness :
  rawmux_read_header demo_env
    (mkCtx (HEADER ++ x01 :: concat (map encode [])
              ++ encode (VideoDesc [x72; x67; x62; x61]
                           [x01; x00; x00; x00] [x1e; x00; x00; x00]
                           [x00; x00; x00; x00] [x02; x00; x00; x00])
              ++ [xff]) [] []) =
  Some (Return (- 22),
        mkCtx [xff]
              (([] ++ catalog_from demo_env 0 []) ++
               [mkStream 0 (mkPar AVMEDIA_TYPE_VIDEO 13 26 0 2 0 0 0 0 0)
                         (mkRational 1 30) 64])
              []).
Proof.
  assert (Hname : name_fits 31 [x72; x67; x62; x61])
    by (split; [repeat constructor; discriminate|cbn; lia]).
  apply (rawmux_read_header_buffer_size_error demo_env
           (mkCtx (HEADER ++ x01 :: concat (map encode [])
                     ++ encode (VideoDesc [x72; x67; x62; x61]
                                  [x01; x00; x00; x00] [x1e; x00; x00; x00]
                                  [x00; x00; x00; x00] [x02; x00; x00; x00])
                     ++ [xff]) [] [])
           HEADER [] [x72; x67; x62; x61]
           [x01; x00; x00; x00] [x1e; x00; x00; x00]
           [x00; x00; x00; x00] [x02; x00; x00; x00] [xff]
           (fun _ _ => eq_refl) eq_refl (Forall_nil _)).
  - cbn. lia.
  - exact Hname.
  - reflexivity.
  - reflexivity.
  - reflexivity.
  - reflexivity.
  - vm_compute. congruence.
  - vm_compute. reflexivity.
  - reflexivity.
Defined.

(** X9.  When the allocation of a stream is refused, the call returns
    [AVERROR(ENOMEM)] at once: nothing is logged, the catalog keeps the
    streams read before, and the cursor stops behind the type byte. *)
Theorem rawmux_read_header_no_memory
        (env : Collaborators) (avctx : AVFormatContext)
        (magic : list byte) (ds : list descriptor) (t : byte) (rest : list byte) :
  (forall i, (length (streams avctx) <= i < length (streams avctx) + length ds)%nat ->
             stream_alloc_ok env i = true) ->
  stream_alloc_ok env (length (streams avctx) + length ds) = false ->
  length magic = 6%nat ->
  Forall (acceptable env) ds ->
  (length (streams avctx) + length ds <= 256)%nat ->
  t = x01 \/ t = x02 ->
  pb avctx = magic ++ x01 :: concat (map encode ds) ++ t :: rest ->
  rawmux_read_header env avctx =
  Some (Return (AVERROR ENOMEM),
        mkCtx rest
              (streams avctx ++ catalog_from env (length (streams avctx)) ds)
              (log avctx)).
Proof.
  intros Halloc Hno Hm Hds Hlen Ht Hpb.
  apply (rawmux_read_header_after env avctx magic ds (t :: rest));
    try assumption.
  rewrite (stream_turn_no_memory env _ t rest); try assumption;
    cbn [pb streams log]; rewrite ?catalog_length; try reflexivity.
  exact Hno.
Qed.

Lemma rawmux_read_header_no_memory_witness :
  rawmux_read_header demo_env2
    (mkCtx (HEADER ++ x01 :: concat (map encode [demo_audio; demo_audio])
              ++ x02 :: [xff]) [] []) =
  Some (Return (- 12),
        mkCtx [xff] ([] ++ catalog_from demo_env2 0 [demo_audio; demo_audio]) []).
Proof.
  assert (Ha : acceptable demo_env2 demo_audio).
  { cbn. split; [split; [repeat constructor; discriminate|cbn; lia]|].
    split; [reflexivity|].
    exists (mkCodec 65536 AVMEDIA_TYPE_AUDIO). repeat split. }
  apply (rawmux_read_header_no_memory demo_env2
           (mkCtx (HEADER ++ x01 :: concat (map encode [demo_audio; demo_audio])
                     ++ x02 :: [xff]) [] [])
           HEADER [demo_audio; demo_audio] x02 [xff]).
  - intros i Hi. cbn in Hi.
    destruct i as [|[|i]]; [reflexivity|reflexivity|lia].
  - reflexivity.
  - reflexivity.
  - apply Forall_cons; [exact Ha|].
    apply Forall_cons; [exact Ha|apply Forall_nil].
  - cbn. lia.
  - right. reflexivity.
  - reflexivity.
Defined.

(** X10.  An audio descriptor whose codec the registry resolves as audio but
    for which it gives no positive bit depth stops the call in
    [av_assert0]: no value is returned and nothing is logged. *)
Theorem rawmux_read_header_assert_bits
        (env : Collaborators) (avctx : AVFormatContext)
        (magic : list byte) (ds : list descriptor)
        (name rate : list byte) (ch : byte) (rest : list byte) (codec : AVCodec) :
  (forall i, (length (streams avctx) <= i <= length (streams avctx) + length ds)%nat ->
             stream_alloc_ok env i = true) ->
  length magic = 6%nat ->
  Forall (acceptable env) ds ->
  (length (streams avctx) + length ds <= 255)%nat ->
  name_fits 27 name ->
  length rate = 4%nat ->
  avcodec_find_decoder_by_name env
    (String.append "pcm_" (string_of_list_byte name)) = Some codec ->
  AVCodec_type codec = AVMEDIA_TYPE_AUDIO ->
  av_get_bits_per_sample env (AVCodec_id codec) <= 0 ->
  pb avctx =
    magic ++ x01 :: concat (map encode ds)
          ++ encode (AudioDesc name rate ch) ++ rest ->
  exists c',
    rawmux_read_header env avctx = Some (Aborted, c') /\ log c' = log avctx.
Proof.
  intros Halloc Hm Hds Hlen Hname Hr Hfind Htype Hbits Hpb.
  destruct (stream_turn_no_bits env
              (mkCtx (encode (AudioDesc name rate ch) ++ rest)
                     (streams avctx ++ catalog_from env (length (streams avctx)) ds)
                     (log avctx))
              name rate ch rest codec)
    as (c' & Hturn & Hlog); try assumption;
    cbn [pb streams log]; rewrite ?catalog_length; try reflexivity; try lia.
  { apply Halloc. lia. }
  exists c'. split; [|exact Hlog].
  apply (rawmux_read_header_after env avctx magic ds
           (encode (AudioDesc name rate ch) ++ rest)); try assumption; try lia.
  intros i Hi. apply Halloc. lia.
Qed.

Lemma rawmux_read_header_assert_bits_witness :
  exists c',
    rawmux_read_header demo_env2
      (mkCtx (HEADER ++ x01 :: concat (map encode [])
                ++ encode (AudioDesc [x7a; x65; x72; x6f]
                             [x44; xac; x00; x00] x02) ++ [xff]) [] [])
    = Some (Aborted, c') /\ log c' = [].
Proof.
  assert (Hname : name_fits 27 [x7a; x65; x72; x6f])
    by (split; [repeat constructor; discriminate|cbn; lia]).
  apply (rawmux_read_header_assert_bits demo_env2
           (mkCtx (HEADER ++ x01 :: concat (map encode [])
                     ++ encode (AudioDesc [x7a; x65; x72; x6f]
                                  [x44; xac; x00; x00] x02) ++ [xff]) [] [])
           HEADER [] [x7a; x65; x72; x6f] [x44; xac; x00; x00] x02 [xff]
           (mkCodec 7 AVMEDIA_TYPE_AUDIO)).
  - intros i Hi. cbn in Hi. assert (i = 0%nat) as -> by lia. reflexivity.
  - reflexivity.
  - apply Forall_nil.
  - cbn. lia.
  - exact Hname.
  - reflexivity.
  - reflexivity.
  - reflexivity.
  - vm_compute. congruence.
  - reflexivity.
Defined.

(** ** Names longer than their field *)

Lemma avio_get_str_full (k : nat) (name : list byte) (b : byte) (rest : list byte) :
  Forall (fun c => c <> x00) name -> length name = k ->
  avio_get_str (name ++ b :: rest) (S k) (S k) = (name, rest).
Proof.
  intros Hn Hl. unfold avio_get_str.
  replace (Nat.min (S k - 1) (S k)) with k by lia.
  subst k. rewrite get_str_keep_full by assumption.
  replace (S (length name) - length name)%nat with 1%nat by lia.
  cbn [get_str_drop read_byte]. destruct (Byte.eqb b x00); reflexivity.
Qed.

(** X11.  A name that fills its field is cut, not refused: after the 31
    characters kept of a pixel-format name (27 of a codec name) exactly one
    more byte is consumed and dropped, whatever it is, so the table is read
    as if that byte were the NUL (the stream for the descriptor being
    allocated and within the limit). *)
Theorem read_streams_name_truncated
        (env : Collaborators) (fuel : nat) (t : byte)
        (name : list byte) (b : byte) (rest : list byte)
        (ss : list AVStream) (l : list log_msg) :
  Forall (fun c => c <> x00) name ->
  (t = x01 /\ length name = 31%nat) \/ (t = x02 /\ length name = 27%nat) ->
  stream_alloc_ok env (length ss) = true ->
  (length ss <= 255)%nat ->
  read_streams env fuel (mkCtx (t :: name ++ b :: rest) ss l) =
  read_streams env fuel (mkCtx (t :: name ++ x00 :: rest) ss l).
Proof.
  intros Hn Ht Halloc Hlen. destruct fuel as [|fuel]; [reflexivity|].
  rewrite !read_streams_S.
  assert (E : stream_turn env (mkCtx (t :: name ++ b :: rest) ss l) =
              stream_turn env (mkCtx (t :: name ++ x00 :: rest) ss l)).
  { unfold stream_turn. cbn [pb]. rewrite !avio_r8_cons.
    unfold avformat_new_stream. cbn [streams set_pb pb log].
    destruct Ht as [[-> Hl]|[-> Hl]].
    - change (byte_val x01 =? STREAM_NONE) with false.
      change (byte_val x01 >? STREAM_AUDIO) with false.
      change (byte_val x01 =? STREAM_VIDEO) with true. cbv iota.
      rewrite Halloc. cbn [index].
      destruct (Z.gtb_spec (Z.of_nat (length ss)) 255); [lia|].
      unfold video_stream. cbn [pb].
      rewrite !(avio_get_str_full 31) by assumption. reflexivity.
    - change (byte_val x02 =? STREAM_NONE) with false.
      change (byte_val x02 >? STREAM_AUDIO) with false.
      change (byte_val x02 =? STREAM_VIDEO) with false.
      change (byte_val x02 =? STREAM_AUDIO) with true. cbv iota.
      rewrite Halloc. cbn [index].
      destruct (Z.gtb_spec (Z.of_nat (length ss)) 255); [lia|].
      unfold audio_stream. cbn [pb]. change (32 - 4)%nat with 28%nat.
      rewrite !(avio_get_str_full 27) by assumption. reflexivity. }
  rewrite E. reflexivity.
Qed.

Lemma read_streams_name_truncated_witness :
  read_streams demo_env 3
    (mkCtx (x02 :: repeat x61 27 ++ x62 :: [x00]) [] []) =
  read_streams demo_env 3
    (mkCtx (x02 :: repeat x61 27 ++ x00 :: [x00]) [] []).
Proof.
  apply (read_streams_name_truncated demo_env 3 x02 (repeat x61 27) x62 [x00] [] []).
  - apply Forall_forall. intros c Hc. apply repeat_spec in Hc. subst c. discriminate.
  - right. split; reflexivity.
  - reflexivity.
  - cbn. lia.
Defined.

(** ** What the header reader does on any input *)

(** X12.  On every input the header reader comes to an end; it never moves
    the cursor back, never changes or removes a stream that is in the
    catalog, and appends at most one message to the log, which it does only
    together with [AVERROR_INVALIDDATA]; a return of 0 logs nothing. *)
Theorem rawmux_read_header_effects
        (env : Collaborators) (avctx : AVFormatContext) :
  exists r c',
    rawmux_read_header env avctx = Some (r, c') /\
    (length (pb c') <= length (pb avctx))%nat /\
    (exists new, streams c' = streams avctx ++ new) /\
    (log c' = log avctx \/
     (exists m, log c' = log avctx ++ [m]) /\ r = Return AVERROR_INVALIDDATA) /\
    (r = Return 0 -> log c' = log avctx).
Proof.
  destruct (rawmux_read_header_total env avctx) as [[r c'] H].
  exists r, c'. split; [exact H|].
  unfold rawmux_read_header in H.
  destruct (avio_r8 (avio_skip (pb avctx) sizeof_HEADER)) as [version s] eqn:E.
  apply avio_r8_length in E. unfold avio_skip in E. rewrite length_skipn in E.
  destruct (negb (version =? 1)).
  - inversion H; subst. cbn. split; [lia|].
    split; [exists []; now rewrite app_nil_r|].
    split; [right; eauto|discriminate].
  - apply read_streams_shape in H. cbn [pb streams log set_pb] in H.
    destruct H as (H1 & H2 & H3). split; [lia|]. split; [exact H2|].
    split; [exact H3|].
    intros ->. destruct H3 as [H3|[_ H3]]; [exact H3|discriminate].
Qed.

(** X13.  After a return of 0 on a context without streams, the catalog has
    at most 256 streams, each carries its position as index (so every index
    fits the stream byte of a packet), each has timestamps of 64 bits, and
    each is either raw video with a resolved pixel format or audio whose
    codec id and bit depth are those of a codec that the registry returns
    for a name starting with ["pcm_"] and gives the media type audio. *)
Theorem rawmux_read_header_indices
        (env : Collaborators) (avctx c' : AVFormatContext) :
  streams avctx = [] ->
  rawmux_read_header env avctx = Some (Return 0, c') ->
  (length (streams c') <= 256)%nat /\
  forall i st, nth_error (streams c') i = Some st ->
    index st = Z.of_nat i /\ 0 <= index st < 256 /\
    pts_wrap_bits st = 64 /\
    (codec_type (codecpar st) = AVMEDIA_TYPE_VIDEO /\
     codec_id (codecpar st) = AV_CODEC_ID_RAWVIDEO env /\
     format (codecpar st) <> AV_PIX_FMT_NONE \/
     codec_type (codecpar st) = AVMEDIA_TYPE_AUDIO /\
     exists suffix codec,
       avcodec_find_decoder_by_name env
         (String.append "pcm_" suffix) = Some codec /\
       AVCodec_type codec = AVMEDIA_TYPE_AUDIO /\
       codec_id (codecpar st) = AVCodec_id codec /\
       bits_per_coded_sample (codecpar st) =
         av_get_bits_per_sample env (AVCodec_id codec)).
Proof.
  intros Hs H. unfold rawmux_read_header in H.
  destruct (avio_r8 (avio_skip (pb avctx) sizeof_HEADER)) as [version s].
  destruct (negb (version =? 1)); [discriminate|].
  apply read_streams_added in H. cbn [streams set_pb] in H. rewrite Hs in H.
  destruct H as (new & H1 & H2 & H3). cbn [app length] in H1, H2, H3.
  rewrite H1. split; [lia|].
  intros i st E. destruct (H3 i st E) as (J1 & J2 & J3).
  assert (i < length new)%nat by (apply nth_error_Some; congruence).
  cbn in J1. repeat split; try assumption; lia.
Qed.

Lemma rawmux_read_header_indices_witness :
  (length (catalog_from demo_env 0 [demo_video; demo_audio]) <= 256)%nat /\
  index (stream_of demo_env 1 demo_audio) = 1 /\
  pts_wrap_bits (stream_of demo_env 1 demo_audio) = 64.
Proof.
  destruct (rawmux_read_header_indices demo_env
              (mkCtx (HEADER ++ x01 :: concat (map encode [demo_video; demo_audio])
                        ++ [x00]) [] [])
              (mkCtx [] (catalog_from demo_env 0 [demo_video; demo_audio]) [])
              eq_refl)
    as [Hlen Hst].
  - vm_compute. reflexivity.
  - destruct (Hst 1%nat (stream_of demo_env 1 demo_audio) eq_refl)
      as (Hi & _ & Hw & _).
    split; [exact Hlen|]. split; [exact Hi|exact Hw].
Defined.

(** X14.  The header reader skips the first six bytes without looking at
    them: two inputs that differ only there are read alike. *)
Theorem rawmux_read_header_ignores_magic
        (env : Collaborators) (m1 m2 rest : list byte)
        (ss : list AVStream) (l : list log_msg) :
  length m1 = 6%nat -> length m2 = 6%nat ->
  rawmux_read_header env (mkCtx (m1 ++ rest) ss l) =
  rawmux_read_header env (mkCtx (m2 ++ rest) ss l).
Proof.
  intros H1 H2. unfold rawmux_read_header, avio_skip. cbn [pb].
  change sizeof_HEADER with 6%nat.
  rewrite <- H1 at 1. rewrite skipn_length_app.
  rewrite <- H2 at 1. rewrite skipn_length_app.
  reflexivity.
Qed.

Lemma rawmux_read_header_ignores_magic_witness :
  rawmux_read_header demo_env
    (mkCtx (HEADER ++ [x01; x00]) [] []) =
  rawmux_read_header demo_env
    (mkCtx ([x00; x00; x00; x00; x00; x00] ++ [x01; x00]) [] []).
Proof.
  apply (rawmux_read_header_ignores_magic demo_env
           HEADER [x00; x00; x00; x00; x00; x00] [x01; x00] [] []);
    reflexivity.
Defined.

(** X15.  An input of at most six bytes has no version byte: the reader
    gets 0 for it and fails with [AVERROR_INVALIDDATA] and the message for
    version 0, with the catalog as it was. *)
Theorem rawmux_read_header_short_input
        (env : Collaborators) (avctx : AVFormatContext) :
  (length (pb avctx) <= 6)%nat ->
  rawmux_read_header env avctx =
  Some (Return AVERROR_INVALIDDATA,
        mkCtx [] (streams avctx) (log avctx ++ [Invalid_version 0])).
Proof.
  intros H. unfold rawmux_read_header, avio_skip.
  change sizeof_HEADER with 6%nat. rewrite skipn_all2 by exact H.
  reflexivity.
Qed.

Lemma rawmux_read_header_short_input_witness :
  rawmux_read_header demo_env (mkCtx HEADER [] []) =
  Some (Return AVERROR_INVALIDDATA, mkCtx [] [] ([] ++ [Invalid_version 0])).
Proof.
  apply (rawmux_read_header_short_input demo_env (mkCtx HEADER [] [])).
  cbn. lia.
Defined.

(** ** The sniffer looks at six bytes *)

Lemma memcmp_firstn (n : nat) : forall a b : list byte,
  memcmp a (firstn n b) n = memcmp a b n.
Proof.
  induction n as [|n IH]; intros a b; [reflexivity|].
  destruct a as [|x a]; destruct b as [|y b]; cbn [memcmp firstn];
    try reflexivity.
  destruct (Byte.eqb x y); [apply IH|reflexivity].
Qed.

(** X16.  The score of the sniffer is 0 or [AVPROBE_SCORE_MAX], and it
    depends on the first six bytes of the buffer only. *)
Theorem rawmux_read_probe_prefix (buf : list byte) :
  rawmux_read_probe buf = rawmux_read_probe (firstn 6 buf) /\
  (rawmux_read_probe buf = 0 \/ rawmux_read_probe buf = AVPROBE_SCORE_MAX).
Proof.
  unfold rawmux_read_probe. change sizeof_HEADER with 6%nat.
  rewrite memcmp_firstn, length_firstn. split.
  - destruct (Z.ltb_spec (Z.of_nat (length buf)) (Z.of_nat 6)) as [Hs|Hl];
      destruct (Z.ltb_spec (Z.of_nat (Nat.min 6 (length buf))) (Z.of_nat 6));
      try lia; reflexivity.
  - destruct ((Z.of_nat (length buf) <? Z.of_nat 6)
              || negb (memcmp HEADER buf 6 =? 0)); auto.
Qed.

(** ** Headers and files written from values *)

Section Tracks.
Variable env : Collaborators.

Lemma mux_track_acceptable (t : track) :
  track_ok env t -> acceptable env (mux_track t).
Proof.
  destruct t as [name n d w h|name rate ch]; cbn [track_ok mux_track acceptable].
  - intros (Hname & Hn & Hd & Hw & Hh & Hfmt & Hframe & Hnz).
    rewrite !length_le_bytes, !rl_value_le_bytes_int32 by assumption.
    split; [exact Hname|]. repeat split; assumption || reflexivity.
  - intros (Hname & Hr & Hch & Hcodec).
    rewrite length_le_bytes. split; [exact Hname|].
    split; [reflexivity|exact Hcodec].
Qed.

Lemma stream_of_mux_track (idx : nat) (t : track) :
  track_ok env t -> stream_of env idx (mux_track t) = stream_of_track env idx t.
Proof.
  destruct t as [name n d w h|name rate ch];
    cbn [track_ok mux_track stream_of stream_of_track].
  - intros (Hname & Hn & Hd & Hw & Hh & _).
    rewrite !rl_value_le_bytes_int32 by assumption. reflexivity.
  - intros (Hname & Hr & Hch & _).
    rewrite rl_value_le_bytes_int32 by assumption.
    rewrite byte_val_of_Z, Z.mod_small by exact Hch. reflexivity.
Qed.

Lemma catalog_from_mux_tracks (ts : list track) : forall start,
  Forall (track_ok env) ts ->
  catalog_from env start (map mux_track ts) = tracks_from env start ts.
Proof.
  induction ts as [|t ts IH]; intros start H; [reflexivity|].
  inversion H as [|? ? Ht Hts]; subst.
  cbn [map catalog_from tracks_from].
  rewrite stream_of_mux_track by assumption. rewrite IH by assumption.
  reflexivity.
Qed.

(** A header written from tracks, read into a context that may hold
    streams already. *)
Lemma rawmux_read_header_tracks (avctx : AVFormatContext)
      (ts : list track) (rest : list byte) :
  (forall i, (length (streams avctx) <= i < length (streams avctx) + length ts)%nat ->
             stream_alloc_ok env i = true) ->
  Forall (track_ok env) ts ->
  (length (streams avctx) + length ts <= 256)%nat ->
  pb avctx = mux_header ts ++ rest ->
  rawmux_read_header env avctx =
  Some (Return 0,
        mkCtx rest
              (streams avctx ++ tracks_from env (length (streams avctx)) ts)
              (log avctx)).
Proof.
  intros Halloc Hts Hlen Hpb.
  rewrite <- (catalog_from_mux_tracks ts _ Hts).
  apply (rawmux_read_header_after env avctx HEADER (map mux_track ts)
           (x00 :: rest)).
  - rewrite length_map. exact Halloc.
  - reflexivity.
  - apply Forall_map. eapply Forall_impl; [|exact Hts].
    intros t. apply mux_track_acceptable.
  - rewrite length_map. exact Hlen.
  - rewrite Hpb. unfold mux_header. rewrite map_map.
    rewrite <- app_assoc. cbn [app]. rewrite <- app_assoc. reflexivity.
  - reflexivity.
Qed.

End Tracks.

(** X17.  A header written from the values of its tracks (magic, version 1,
    one descriptor per track with little-endian fields, terminator) is read
    back with success as the catalog of those tracks: names resolved, time
    base, width, height, sample rate and channel count as written, bit rate
    and block size derived from them. *)
Theorem rawmux_read_header_mux_header
        (env : Collaborators) (ts : list track) (rest : list byte)
        (l : list log_msg) :
  (forall i, (i < length ts)%nat -> stream_alloc_ok env i = true) ->
  Forall (track_ok env) ts ->
  (length ts <= 256)%nat ->
  rawmux_read_header env (mkCtx (mux_header ts ++ rest) [] l) =
  Some (Return 0, mkCtx rest (tracks_from env 0 ts) l).
Proof.
  intros Halloc Hts Hlen.
  rewrite (rawmux_read_header_tracks env
             (mkCtx (mux_header ts ++ rest) [] l) ts rest);
    cbn [streams log pb length app]; try assumption; try reflexivity.
  intros i Hi. apply Halloc. lia.
Qed.

Lemma demo_tracks_ok :
  Forall (track_ok demo_env)
         [VideoTrack [x72; x67; x62; x61] 1 30 640 480;
          AudioTrack [x73; x31; x36; x6c; x65] 44100 2].
Proof.
  apply Forall_cons; [|apply Forall_cons; [|apply Forall_nil]].
  - cbn [track_ok]. split; [split; [repeat constructor; discriminate|cbn; lia]|].
    unfold int32_range. repeat split; try lia; vm_compute; congruence.
  - cbn [track_ok]. split; [split; [repeat constructor; discriminate|cbn; lia]|].
    unfold int32_range. split; [lia|]. split; [lia|].
    exists (mkCodec 65536 AVMEDIA_TYPE_AUDIO). repeat split.
Qed.

Lemma rawmux_read_header_mux_header_witness :
  rawmux_read_header demo_env
    (mkCtx (mux_header [VideoTrack [x72; x67; x62; x61] 1 30 640 480;
                        AudioTrack [x73; x31; x36; x6c; x65] 44100 2]
              ++ [xff]) [] []) =
  Some (Return 0,
        mkCtx [xff]
              (tracks_from demo_env 0
                 [VideoTrack [x72; x67; x62; x61] 1 30 640 480;
                  AudioTrack [x73; x31; x36; x6c; x65] 44100 2]) []).
Proof.
  apply (rawmux_read_header_mux_header demo_env
           [VideoTrack [x72; x67; x62; x61] 1 30 640 480;
            AudioTrack [x73; x31; x36; x6c; x65] 44100 2] [xff] []).
  - reflexivity.
  - exact demo_tracks_ok.
  - cbn. lia.
Defined.

(** X18.  Header and packets compose: on a file made of a header written
    from its tracks followed by packets, the header reader leaves the
    cursor on the first packet, and as many calls of the packet reader as
    there are packets return them in order and leave what follows the last
    one. *)
Theorem rawmux_read_file
        (env : Collaborators) (ts : list track) (pkts : list AVPacket)
        (rest : list byte) (pkt0 : AVPacket) :
  (forall i, (i < length ts)%nat -> stream_alloc_ok env i = true) ->
  Forall (track_ok env) ts ->
  (length ts <= 256)%nat ->
  Forall packet_ok pkts ->
  exists c,
    rawmux_read_header env
      (mkCtx (mux_header ts ++ concat (map mux_packet pkts) ++ rest) [] []) =
    Some (Return 0, c) /\
    streams c = tracks_from env 0 ts /\
    read_packets (length pkts) c pkt0 =
    (pkts, mkCtx rest (tracks_from env 0 ts) []).
Proof.
  intros Halloc Hts Hlen Hpk.
  exists (mkCtx (concat (map mux_packet pkts) ++ rest) (tracks_from env 0 ts) []).
  split.
  { rewrite (rawmux_read_header_tracks env
               (mkCtx (mux_header ts ++ concat (map mux_packet pkts) ++ rest)
                      [] [])
               ts (concat (map mux_packet pkts) ++ rest));
      cbn [streams log pb length app]; try assumption; try reflexivity.
    intros i Hi. apply Halloc. lia. }
  split; [reflexivity|].
  rewrite (read_packets_layout pkts
             (mkCtx (concat (map mux_packet pkts) ++ rest)
                    (tracks_from env 0 ts) [])
             pkt0 rest Hpk eq_refl).
  reflexivity.
Qed.

Lemma rawmux_read_file_witness :
  exists c,
    rawmux_read_header demo_env
      (mkCtx (mux_header [VideoTrack [x72; x67; x62; x61] 1 30 640 480;
                          AudioTrack [x73; x31; x36; x6c; x65] 44100 2]
                ++ concat (map mux_packet [mkPacket [xaa] 1 7 7 0;
                                           mkPacket [] 0 (- 1) (- 1) 1])
                ++ [xff]) [] []) =
    Some (Return 0, c) /\
    streams c =
      tracks_from demo_env 0
        [VideoTrack [x72; x67; x62; x61] 1 30 640 480;
         AudioTrack [x73; x31; x36; x6c; x65] 44100 2] /\
    read_packets 2 c (mkPacket [] 0 0 0 0) =
    ([mkPacket [xaa] 1 7 7 0; mkPacket [] 0 (- 1) (- 1) 1],
     mkCtx [xff]
           (tracks_from demo_env 0
              [VideoTrack [x72; x67; x62; x61] 1 30 640 480;
               AudioTrack [x73; x31; x36; x6c; x65] 44100 2]) []).
Proof.
  apply (rawmux_read_file demo_env
           [VideoTrack [x72; x67; x62; x61] 1 30 640 480;
            AudioTrack [x73; x31; x36; x6c; x65] 44100 2]
           [mkPacket [xaa] 1 7 7 0; mkPacket [] 0 (- 1) (- 1) 1]
           [xff] (mkPacket [] 0 0 0 0)).
  - reflexivity.
  - exact demo_tracks_ok.
  - cbn. lia.
  - repeat constructor; cbn; try lia; discriminate.
Defined.
